(** * idraak-backend: counters, weighted votes and request workflows

    A shallow embedding of the Express routes of [src/index.js] together
    with the PostgreSQL tables, constraints and triggers of [src/schema.sql]
    they run against.  Tables are lists of rows; each SQL statement is a
    function on the database that either succeeds or fails as a whole
    (PostgreSQL statement atomicity, including the effects of its
    triggers).  The routes issue their statements one by one through
    [pool.query], with no surrounding transaction, so a failing statement
    leaves the effects of the earlier ones in place; the route's [catch]
    then answers 500. *)

From Stdlib Require Import ZArith List String Ascii Bool Lia.
Import ListNotations.
Open Scope Z_scope.
Open Scope string_scope.

(** ** Rows *)

(** Identifiers ([uuid] columns). *)
Abbreviation uuid := nat (only parsing).

Record role := mkRole { role_id : uuid; upvote_weight : Z }.

Record user := mkUser { user_id : uuid; user_role_id : uuid }.

(** [issues.comment_count] is a nullable column ([DEFAULT 0 NULL]);
    [groups.issue_count] too. *)
Record issue := mkIssue {
  issue_id : uuid;
  issue_user_id : uuid;
  issue_group_id : option uuid;
  issue_upvote_count : Z;
  issue_comment_count : option Z }.

Record group := mkGroup {
  group_id : uuid;
  group_owner_id : uuid;
  group_upvote_count : Z;
  group_comment_count : Z;
  group_issue_count : option Z }.

(** [upvote_weight int4 DEFAULT 1 NULL]. *)
Record issue_upvote := mkIssueUpvote {
  iu_issue_id : uuid; iu_user_id : uuid; iu_upvote_weight : option Z }.

Record group_upvote := mkGroupUpvote {
  gu_group_id : uuid; gu_user_id : uuid; gu_upvote_weight : option Z }.

(** A JavaScript string: its sequence of UTF-16 code units. *)
Definition jsstring : Type := list Z.

(** An ASCII literal as a JavaScript string. *)
Fixpoint js_str (s : string) : jsstring :=
  match s with
  | EmptyString => []
  | String c rest => Z.of_nat (nat_of_ascii c) :: js_str rest
  end.

Record comment := mkComment {
  c_comment_id : uuid; c_issue_id : uuid; c_user_id : uuid; c_content : jsstring }.

Record group_comment := mkGroupComment {
  gc_comment_id : uuid; gc_group_id : uuid; gc_user_id : uuid; gc_content : jsstring }.

(** [status text DEFAULT 'pending']; timestamps are clock ticks. *)
Record group_join_request := mkGJR {
  gjr_req_id : uuid;
  gjr_issue_id : uuid;
  gjr_group_id : uuid;
  gjr_requested_by_group : bool;
  gjr_status : string;
  gjr_requested_at : nat;
  gjr_handled_at : option nat }.

Record role_change_request := mkRCR {
  rcr_req_id : uuid;
  rcr_user_id : uuid;
  rcr_requested_role_id : uuid;
  rcr_status : string }.

(** The database; [next_uuid] stands for [gen_random_uuid()] and [now]
    for [NOW()]. *)
Record db := mkDb {
  roles : list role;
  users : list user;
  issues : list issue;
  groups : list group;
  issue_upvotes : list issue_upvote;
  group_upvotes : list group_upvote;
  comments : list comment;
  group_comments : list group_comment;
  group_join_requests : list group_join_request;
  role_change_requests : list role_change_request;
  next_uuid : nat;
  now : nat }.

(** Table replacement. *)
Definition with_issues (d : db) (l : list issue) : db :=
  mkDb (roles d) (users d) l (groups d) (issue_upvotes d) (group_upvotes d)
       (comments d) (group_comments d) (group_join_requests d)
       (role_change_requests d) (next_uuid d) (now d).
Definition with_groups (d : db) (l : list group) : db :=
  mkDb (roles d) (users d) (issues d) l (issue_upvotes d) (group_upvotes d)
       (comments d) (group_comments d) (group_join_requests d)
       (role_change_requests d) (next_uuid d) (now d).
Definition with_issue_upvotes (d : db) (l : list issue_upvote) : db :=
  mkDb (roles d) (users d) (issues d) (groups d) l (group_upvotes d)
       (comments d) (group_comments d) (group_join_requests d)
       (role_change_requests d) (next_uuid d) (now d).
Definition with_group_upvotes (d : db) (l : list group_upvote) : db :=
  mkDb (roles d) (users d) (issues d) (groups d) (issue_upvotes d) l
       (comments d) (group_comments d) (group_join_requests d)
       (role_change_requests d) (next_uuid d) (now d).
Definition with_comments (d : db) (l : list comment) : db :=
  mkDb (roles d) (users d) (issues d) (groups d) (issue_upvotes d)
       (group_upvotes d) l (group_comments d) (group_join_requests d)
       (role_change_requests d) (next_uuid d) (now d).
Definition with_group_comments (d : db) (l : list group_comment) : db :=
  mkDb (roles d) (users d) (issues d) (groups d) (issue_upvotes d)
       (group_upvotes d) (comments d) l (group_join_requests d)
       (role_change_requests d) (next_uuid d) (now d).
Definition with_group_join_requests (d : db) (l : list group_join_request) : db :=
  mkDb (roles d) (users d) (issues d) (groups d) (issue_upvotes d)
       (group_upvotes d) (comments d) (group_comments d) l
       (role_change_requests d) (next_uuid d) (now d).
Definition with_role_change_requests (d : db) (l : list role_change_request) : db :=
  mkDb (roles d) (users d) (issues d) (groups d) (issue_upvotes d)
       (group_upvotes d) (comments d) (group_comments d)
       (group_join_requests d) l (next_uuid d) (now d).

(** [gen_random_uuid()]: a fresh identifier. *)
Definition fresh_uuid (d : db) : uuid * db :=
  (next_uuid d,
   mkDb (roles d) (users d) (issues d) (groups d) (issue_upvotes d)
        (group_upvotes d) (comments d) (group_comments d)
        (group_join_requests d) (role_change_requests d)
        (S (next_uuid d)) (now d)).

(** ** Lookups ([SELECT ... WHERE pk = $1]) *)

Definition find_user (d : db) (u : uuid) : option user :=
  find (fun x => Nat.eqb (user_id x) u) (users d).
Definition find_role (d : db) (r : uuid) : option role :=
  find (fun x => Nat.eqb (role_id x) r) (roles d).
Definition find_issue (d : db) (i : uuid) : option issue :=
  find (fun x => Nat.eqb (issue_id x) i) (issues d).
Definition find_group (d : db) (g : uuid) : option group :=
  find (fun x => Nat.eqb (group_id x) g) (groups d).

Definition is_some {A} (o : option A) : bool :=
  match o with Some _ => true | None => false end.

(** [SELECT r.upvote_weight FROM users u JOIN roles r
     ON u.role_id = r.role_id WHERE u.user_id = $1]. *)
Definition select_role_weight (d : db) (u : uuid) : option Z :=
  match find_user d u with
  | Some usr => option_map upvote_weight (find_role d (user_role_id usr))
  | None => None
  end.

(** [UPDATE issues SET ... WHERE issue_id = i] and its [groups] twin. *)
Definition update_issue (i : uuid) (f : issue -> issue) (d : db) : db :=
  with_issues d (map (fun x => if Nat.eqb (issue_id x) i then f x else x) (issues d)).
Definition update_group (g : uuid) (f : group -> group) (d : db) : db :=
  with_groups d (map (fun x => if Nat.eqb (group_id x) g then f x else x) (groups d)).

Definition set_issue_upvote_count (x : issue) (n : Z) : issue :=
  mkIssue (issue_id x) (issue_user_id x) (issue_group_id x) n (issue_comment_count x).
Definition set_issue_comment_count (x : issue) (n : option Z) : issue :=
  mkIssue (issue_id x) (issue_user_id x) (issue_group_id x) (issue_upvote_count x) n.
Definition set_issue_group_id (x : issue) (g : option uuid) : issue :=
  mkIssue (issue_id x) (issue_user_id x) g (issue_upvote_count x) (issue_comment_count x).
Definition set_group_upvote_count (x : group) (n : Z) : group :=
  mkGroup (group_id x) (group_owner_id x) n (group_comment_count x) (group_issue_count x).
Definition set_group_comment_count (x : group) (n : Z) : group :=
  mkGroup (group_id x) (group_owner_id x) (group_upvote_count x) n (group_issue_count x).
Definition set_group_issue_count (x : group) (n : option Z) : group :=
  mkGroup (group_id x) (group_owner_id x) (group_upvote_count x) (group_comment_count x) n.

(** SQL [COALESCE(x, 0)]. *)
Definition coalesce0 (x : option Z) : Z := match x with Some n => n | None => 0 end.

(** [int4] arithmetic: [+] and [-] on [int4] values raise [integer out
    of range] when the result leaves this range, and an [UPDATE] whose
    [SET] expression does so on one of the rows it matches fails as a
    whole.  [rows_in_int4 sel val l]: every row of [l] selected by [sel]
    has its [int4] expression [val] in range. *)
Definition int4_min : Z := -2147483648.
Definition int4_max : Z := 2147483647.
Definition in_int4 (z : Z) : bool := Z.leb int4_min z && Z.leb z int4_max.
Definition rows_in_int4 {A} (sel : A -> bool) (val : A -> Z) (l : list A) : bool :=
  forallb (fun x => negb (sel x) || in_int4 (val x)) l.

(** Row-level triggers fired one after the other; one that raises aborts
    the statement. *)
Fixpoint fold_triggers {A} (trg : db -> A -> option db) (rows : list A) (d : db)
  : option db :=
  match rows with
  | [] => Some d
  | r :: rest => match trg d r with
                 | Some d' => fold_triggers trg rest d'
                 | None => None
                 end
  end.

(** ** The route monad: [pool.query] calls with a [try]/[catch] *)

Inductive outcome (A : Type) : Type :=
| Ret (a : A)
| Throw.
Arguments Ret {A} a.
Arguments Throw {A}.

Definition M (A : Type) : Type := db -> outcome A * db.

Definition ret {A} (a : A) : M A := fun d => (Ret a, d).
Definition bind {A B} (m : M A) (k : A -> M B) : M B :=
  fun d => match m d with
           | (Ret a, d') => k a d'
           | (Throw, d') => (Throw, d')
           end.
Definition throw {A} : M A := fun d => (Throw, d).

Notation "x <- m ;; k" := (bind m (fun x => k))
  (at level 61, m at next level, right associativity).

(** A read-only query. *)
Definition query {A} (f : db -> A) : M A := fun d => (Ret (f d), d).
(** A statement that cannot fail. *)
Definition exec (f : db -> db) : M unit := fun d => (Ret tt, f d).
(** A statement that may violate a constraint: on failure nothing of it
    is kept and the error propagates. *)
Definition sql {A} (f : db -> option (A * db)) : M A :=
  fun d => match f d with
           | Some (a, d') => (Ret a, d')
           | None => (Throw, d)
           end.
(** [result.rows[0].field]: a [TypeError] when there is no row. *)
Definition rows0 {A} (o : option A) : M A :=
  match o with Some a => ret a | None => throw end.

(** JSON payloads of the responses. *)
Inductive payload : Type :=
| PUpvote (upvoted : bool) (upvote_count : Z)
| PComment (c : comment)
| PGroupComment (c : group_comment)
| PJoinRequest (r : group_join_request) (auto_accepted : bool)
| PRoleRequest (r : role_change_request)
| PMessage (msg : string)
| PError (msg : string).

Definition response : Type := (Z * payload)%type.

(** [catch (error) { res.status(500).json({ error: "Internal server error" }) }]. *)
Definition route (h : M response) (d : db) : response * db :=
  match h d with
  | (Ret r, d') => (r, d')
  | (Throw, d') => ((500, PError "Internal server error"), d')
  end.

(** ** Issue upvotes: triggers and statements *)

(** [trg_issue_upvote_after_insert], fired [BEFORE INSERT] on
    [issue_upvotes]: resolves the voter's current role weight (1 when the
    join finds no row), stores it on the new row and adds it to the
    issue's [upvote_count]; the [int4] sum out of range raises. *)
Definition trg_issue_upvote_after_insert (d : db) (new : issue_upvote)
  : option (issue_upvote * db) :=
  let w := match select_role_weight d (iu_user_id new) with
           | Some w => w
           | None => 1
           end in
  if rows_in_int4 (fun x => Nat.eqb (issue_id x) (iu_issue_id new))
       (fun x => issue_upvote_count x + w) (issues d)
  then Some (mkIssueUpvote (iu_issue_id new) (iu_user_id new) (Some w),
             update_issue (iu_issue_id new)
               (fun x => set_issue_upvote_count x (issue_upvote_count x + w)) d)
  else None.

(** [trg_issue_upvote_after_delete], fired [AFTER DELETE] for each
    deleted row: [GREATEST(COALESCE(upvote_count, 0) - w, 0)] with [w] the
    stored weight; the difference is computed in [int4]. *)
Definition trg_issue_upvote_after_delete (d : db) (old : issue_upvote) : option db :=
  let w := match iu_upvote_weight old with Some w => w | None => 1 end in
  if rows_in_int4 (fun x => Nat.eqb (issue_id x) (iu_issue_id old))
       (fun x => issue_upvote_count x - w) (issues d)
  then Some (update_issue (iu_issue_id old)
               (fun x => set_issue_upvote_count x (Z.max (issue_upvote_count x - w) 0)) d)
  else None.

Definition iu_matches (i u : uuid) (r : issue_upvote) : bool :=
  Nat.eqb (iu_issue_id r) i && Nat.eqb (iu_user_id r) u.

(** [SELECT upvote_id FROM issue_upvotes WHERE issue_id = $1 AND user_id = $2]. *)
Definition select_issue_upvote (d : db) (i u : uuid) : option issue_upvote :=
  find (iu_matches i u) (issue_upvotes d).

(** [INSERT INTO issue_upvotes (issue_id, user_id) VALUES ($1, $2)]: the
    BEFORE trigger runs on the row with the column default weight 1, then
    the foreign keys and [UNIQUE (issue_id, user_id)] are checked; a
    violation aborts the statement with its trigger's effects. *)
Definition insert_issue_upvote (i u : uuid) (d : db) : option (unit * db) :=
  match trg_issue_upvote_after_insert d (mkIssueUpvote i u (Some 1)) with
  | None => None
  | Some (row, d1) =>
      if is_some (find_issue d1 i) && is_some (find_user d1 u)
         && negb (existsb (iu_matches i u) (issue_upvotes d1))
      then Some (tt, with_issue_upvotes d1 (issue_upvotes d1 ++ [row]))
      else None
  end.

(** [DELETE FROM issue_upvotes WHERE issue_id = $1 AND user_id = $2]: the
    matching rows go, then the AFTER trigger runs once per deleted row. *)
Definition delete_issue_upvote (i u : uuid) (d : db) : option (unit * db) :=
  let gone := filter (iu_matches i u) (issue_upvotes d) in
  let kept := filter (fun r => negb (iu_matches i u r)) (issue_upvotes d) in
  match fold_triggers trg_issue_upvote_after_delete gone (with_issue_upvotes d kept) with
  | Some d' => Some (tt, d')
  | None => None
  end.

(** [UPDATE issues SET upvote_count = f(upvote_count) WHERE issue_id = $2
     RETURNING upvote_count], where [e] is the [int4] arithmetic inside
    [f] ([upvote_count - $1] under [GREATEST(..., 0)], or [upvote_count
    + $1]). *)
Definition update_issue_upvote_count_returning (i : uuid) (e f : Z -> Z)
  : M (option Z) :=
  fun d =>
    if rows_in_int4 (fun x => Nat.eqb (issue_id x) i) (fun x => e (issue_upvote_count x))
         (issues d)
    then
      let d' := update_issue i (fun x => set_issue_upvote_count x (f (issue_upvote_count x))) d in
      (Ret (option_map issue_upvote_count (find_issue d' i)), d')
    else (Throw, d).

(** [userRoleResult.rows[0]?.upvote_weight || 1]. *)
Definition js_or_1 (w : option Z) : Z :=
  match w with
  | Some w => if Z.eqb w 0 then 1 else w
  | None => 1
  end.

(** [POST /issues/:id/upvote] ([src/index.js]). *)
Definition post_issue_upvote (id userId : uuid) : M response :=
  w <- query (fun d => select_role_weight d userId) ;;
  let upvoteWeight := js_or_1 w in
  existing <- query (fun d => select_issue_upvote d id userId) ;;
  match existing with
  | Some _ =>
      _ <- sql (delete_issue_upvote id userId) ;;
      r <- update_issue_upvote_count_returning id
             (fun c => c - upvoteWeight) (fun c => Z.max (c - upvoteWeight) 0) ;;
      n <- rows0 r ;;
      ret (200, PUpvote false n)
  | None =>
      _ <- sql (insert_issue_upvote id userId) ;;
      r <- update_issue_upvote_count_returning id
             (fun c => c + upvoteWeight) (fun c => c + upvoteWeight) ;;
      n <- rows0 r ;;
      ret (200, PUpvote true n)
  end.

(** [toggle_issue_upvote(p_issue_id, p_user_id)] ([src/schema.sql]): the
    stored function the migration notes describe as what the upvote
    endpoint calls; it leaves the counter to the triggers.  Its [DELETE]
    goes by [upvote_id], the row found for the pair. *)
Definition toggle_issue_upvote (p_issue_id p_user_id : uuid)
  : M (bool * Z) :=
  existing <- query (fun d => select_issue_upvote d p_issue_id p_user_id) ;;
  match existing with
  | Some _ =>
      _ <- sql (delete_issue_upvote p_issue_id p_user_id) ;;
      final <- query (fun d => option_map issue_upvote_count (find_issue d p_issue_id)) ;;
      ret (false, coalesce0 final)
  | None =>
      _ <- sql (insert_issue_upvote p_issue_id p_user_id) ;;
      final <- query (fun d => option_map issue_upvote_count (find_issue d p_issue_id)) ;;
      ret (true, coalesce0 final)
  end.

(** The issue's counter as read back from the table. *)
Definition issue_upvotes_of (d : db) (i : uuid) : option Z :=
  option_map issue_upvote_count (find_issue d i).

(** ** Table lemmas *)

Section Tables.

Lemma find_map_update {A} (p : A -> bool) (f : A -> A) (l : list A) :
  (forall x, p (f x) = p x) ->
  find p (map (fun x => if p x then f x else x) l) = option_map f (find p l).
Proof.
  intros Hf; induction l as [|a l IH]; simpl; [reflexivity|].
  destruct (p a) eqn:Ha; simpl.
  - rewrite Hf, Ha; reflexivity.
  - rewrite Ha; exact IH.
Qed.

Lemma find_map_update_other {A} (p q : A -> bool) (f : A -> A) (l : list A) :
  (forall x, p (f x) = p x) -> (forall x, p x = true -> q x = false) ->
  find p (map (fun x => if q x then f x else x) l) = find p l.
Proof.
  intros Hf Hpq; induction l as [|a l IH]; simpl; [reflexivity|].
  destruct (q a) eqn:Hq; simpl.
  - rewrite Hf. destruct (p a) eqn:Hp; [rewrite Hpq in Hq by exact Hp; discriminate|].
    exact IH.
  - destruct (p a); [reflexivity|exact IH].
Qed.

Lemma find_filter_cons {A} (p : A -> bool) (l : list A) a rest :
  filter p l = a :: rest -> find p l = Some a.
Proof.
  induction l as [|b l IH]; simpl; [discriminate|].
  destruct (p b) eqn:Hb; [intros H; injection H as -> _; reflexivity|exact IH].
Qed.

Lemma find_filter_nil {A} (p : A -> bool) (l : list A) :
  filter p l = [] -> find p l = None.
Proof.
  induction l as [|b l IH]; simpl; [reflexivity|].
  destruct (p b); [discriminate|exact IH].
Qed.



Lemma filter_negb_filter {A} (p : A -> bool) (l : list A) :
  filter p (filter (fun x => negb (p x)) l) = [].
Proof.
  induction l as [|b l IH]; simpl; [reflexivity|].
  destruct (p b) eqn:Hb; simpl; [exact IH|rewrite Hb; exact IH].
Qed.

Lemma rows_in_int4_spec {A} (sel : A -> bool) (val : A -> Z) (l : list A) :
  rows_in_int4 sel val l = true <->
  (forall x, In x l -> sel x = true -> in_int4 (val x) = true).
Proof.
  unfold rows_in_int4. rewrite forallb_forall. split.
  - intros H x Hx Hs. specialize (H x Hx). rewrite Hs in H. exact H.
  - intros H x Hx. destruct (sel x) eqn:Hs; [exact (H x Hx Hs)|reflexivity].
Qed.

Lemma rows_in_int4_update_issue (d : db) (i : uuid) (f : issue -> issue) (val : issue -> Z) :
  (forall y, In y (issues d) -> issue_id y = i -> in_int4 (val (f y)) = true) ->
  rows_in_int4 (fun x => Nat.eqb (issue_id x) i) val (issues (update_issue i f d)) = true.
Proof.
  intros H. apply rows_in_int4_spec. intros z Hz Hs.
  apply in_map_iff in Hz as (y & <- & Hy).
  destruct (Nat.eqb (issue_id y) i) eqn:E.
  - apply Nat.eqb_eq in E. exact (H y Hy E).
  - rewrite E in Hs. discriminate Hs.
Qed.

Lemma rows_in_int4_update_group (d : db) (g : uuid) (f : group -> group) (val : group -> Z) :
  (forall y, In y (groups d) -> group_id y = g -> in_int4 (val (f y)) = true) ->
  rows_in_int4 (fun x => Nat.eqb (group_id x) g) val (groups (update_group g f d)) = true.
Proof.
  intros H. apply rows_in_int4_spec. intros z Hz Hs.
  apply in_map_iff in Hz as (y & <- & Hy).
  destruct (Nat.eqb (group_id y) g) eqn:E.
  - apply Nat.eqb_eq in E. exact (H y Hy E).
  - rewrite E in Hs. discriminate Hs.
Qed.

Lemma rows_in_int4_issues (l : list issue) (i : uuid) (val : issue -> Z) :
  (forall y, In y l -> issue_id y = i -> in_int4 (val y) = true) ->
  rows_in_int4 (fun x => Nat.eqb (issue_id x) i) val l = true.
Proof.
  intros H. apply rows_in_int4_spec. intros y Hy Hs.
  apply Nat.eqb_eq in Hs. exact (H y Hy Hs).
Qed.

Lemma rows_in_int4_groups (l : list group) (g : uuid) (val : group -> Z) :
  (forall y, In y l -> group_id y = g -> in_int4 (val y) = true) ->
  rows_in_int4 (fun x => Nat.eqb (group_id x) g) val l = true.
Proof.
  intros H. apply rows_in_int4_spec. intros y Hy Hs.
  apply Nat.eqb_eq in Hs. exact (H y Hy Hs).
Qed.

Lemma rows_in_int4_out {A} (sel : A -> bool) (val : A -> Z) (l : list A) (x : A) :
  In x l -> sel x = true -> in_int4 (val x) = false -> rows_in_int4 sel val l = false.
Proof.
  intros Hx Hs Hv. destruct (rows_in_int4 sel val l) eqn:E; [|reflexivity].
  rewrite (proj1 (rows_in_int4_spec sel val l) E x Hx Hs) in Hv. discriminate Hv.
Qed.

Lemma in_int4_iff (z : Z) : in_int4 z = true <-> int4_min <= z <= int4_max.
Proof.
  unfold in_int4. rewrite Bool.andb_true_iff, !Z.leb_le. reflexivity.
Qed.

Lemma find_update_issue (d : db) (i : uuid) (f : issue -> issue) :
  (forall x, issue_id (f x) = issue_id x) ->
  find_issue (update_issue i f d) i = option_map f (find_issue d i).
Proof.
  intros Hf; unfold find_issue, update_issue; simpl.
  apply find_map_update; intros x; rewrite Hf; reflexivity.
Qed.

Lemma find_update_group (d : db) (g : uuid) (f : group -> group) :
  (forall x, group_id (f x) = group_id x) ->
  find_group (update_group g f d) g = option_map f (find_group d g).
Proof.
  intros Hf; unfold find_group, update_group; simpl.
  apply find_map_update; intros x; rewrite Hf; reflexivity.
Qed.

Lemma find_update_group_other (d : db) (g g' : uuid) (f : group -> group) :
  (forall x, group_id (f x) = group_id x) -> g <> g' ->
  find_group (update_group g' f d) g = find_group d g.
Proof.
  intros Hf Hne; unfold find_group, update_group; simpl.
  apply find_map_update_other.
  - intros x; rewrite Hf; reflexivity.
  - intros x Hx; apply Nat.eqb_eq in Hx; apply Nat.eqb_neq; congruence.
Qed.

Lemma find_issue_with_issue_upvotes (d : db) l i :
  find_issue (with_issue_upvotes d l) i = find_issue d i.
Proof. reflexivity. Qed.

Lemma issues_with_issue_upvotes (d : db) l : issues (with_issue_upvotes d l) = issues d.
Proof. reflexivity. Qed.

Lemma groups_with_group_upvotes (d : db) l : groups (with_group_upvotes d l) = groups d.
Proof. reflexivity. Qed.

Lemma find_user_update_issue (d : db) i f u :
  find_user (update_issue i f d) u = find_user d u.
Proof. reflexivity. Qed.

End Tables.

(** ** Issue upvote toggling *)

Section IssueUpvote.






End IssueUpvote.

(** [UPDATE users SET role_id = v_role_id WHERE user_id = v_user_id], the
    effect of an approved role change ([process_role_change_request]). *)
Definition update_user_role (d : db) (u r : uuid) : db :=
  mkDb (roles d)
       (map (fun x => if Nat.eqb (user_id x) u then mkUser (user_id x) r else x) (users d))
       (issues d) (groups d) (issue_upvotes d) (group_upvotes d) (comments d)
       (group_comments d) (group_join_requests d) (role_change_requests d)
       (next_uuid d) (now d).

(** ** A concrete database for the scenarios

    Role 1 weighs 2, role 2 weighs 5, role 3 weighs 3; user 10 holds role 1, owns issue 20
    (no votes yet, counters at 0) and group 31; user 11 holds role 2 and
    owns group 30. *)
Definition demo_db : db :=
  mkDb [mkRole 1 2; mkRole 2 5; mkRole 3 3] [mkUser 10 1; mkUser 11 2]
       [mkIssue 20 10 None 0 (Some 0)]
       [mkGroup 30 11 0 0 (Some 0); mkGroup 31 10 0 0 (Some 0)]
       [] [] [] [] [] [] 100 0.

(** User 10 upvotes issue 20 at weight 2, then is promoted to role 2
    (weight 5). *)
Definition demo_voted_then_promoted : db :=
  update_user_role (snd (route (post_issue_upvote 20 10) demo_db)) 10 2.

Example demo_first_vote :
  fst (route (post_issue_upvote 20 10) demo_db) = (200, PUpvote true 4).
Proof. reflexivity. Qed.

(** The stored function [toggle_issue_upvote] removes exactly the weight
    stored on the vote, floored at 0. *)
Lemma toggle_issue_upvote_remove (d : db) (i v : uuid) (ws : Z) (x : issue) :
  find_issue d i = Some x ->
  filter (iu_matches i v) (issue_upvotes d) = [mkIssueUpvote i v (Some ws)] ->
  (forall y, In y (issues d) -> issue_id y = i ->
     in_int4 (issue_upvote_count y - ws) = true) ->
  let n := Z.max (issue_upvote_count x - ws) 0 in
  let '(r, d') := toggle_issue_upvote i v d in
  r = Ret (false, n) /\ issue_upvotes_of d' i = Some n /\
  filter (iu_matches i v) (issue_upvotes d') = [].
Proof.
  intros Hi Hv Hr n.
  unfold toggle_issue_upvote, bind, query, sql.
  rewrite (find_filter_cons _ _ _ _ Hv : select_issue_upvote d i v = Some _).
  unfold delete_issue_upvote; rewrite Hv. cbn [fold_triggers].
  unfold trg_issue_upvote_after_delete. cbn [iu_upvote_weight iu_issue_id].
  rewrite (rows_in_int4_issues (issues (with_issue_upvotes d _)) i
             (fun x => issue_upvote_count x - ws) Hr).
  unfold ret, issue_upvotes_of.
  rewrite !find_update_issue, find_issue_with_issue_upvotes, Hi by reflexivity.
  repeat split. apply filter_negb_filter.
Qed.

(** C1 at the spec's own scenario, through [POST /issues/:id/upvote]:
    the vote cast at weight 2 left the counter at 4 (trigger and route
    both add the weight); after the promotion to weight 5 its removal
    takes the counter from 4 to 0 (trigger: stored 2; route: current 5),
    where the claim expects 4 - 2 = 2. *)
Theorem issue_upvote_removal_route_demo :
  issue_upvotes_of demo_voted_then_promoted 20 = Some 4 /\
  select_role_weight demo_voted_then_promoted 10 = Some 5 /\
  filter (iu_matches 20 10) (issue_upvotes demo_voted_then_promoted)
    = [mkIssueUpvote 20 10 (Some 2)] /\
  fst (route (post_issue_upvote 20 10) demo_voted_then_promoted)
    = (200, PUpvote false 0) /\
  issue_upvotes_of (snd (route (post_issue_upvote 20 10) demo_voted_then_promoted)) 20
    = Some 0.
Proof. vm_compute. repeat split. Qed.

(** The same scenario through the stored function [toggle_issue_upvote]
    moves the counter 0 -> 2 -> 0: by the stored weight only. *)
Example toggle_issue_upvote_demo :
  let d1 := snd (toggle_issue_upvote 20 10 demo_db) in
  fst (toggle_issue_upvote 20 10 demo_db) = Ret (true, 2) /\
  fst (toggle_issue_upvote 20 10 (update_user_role d1 10 2)) = Ret (false, 0).
Proof. vm_compute. split; reflexivity. Qed.

(** C2 through [POST /issues/:id/upvote] on a fresh issue: the vote row
    carries the voter's weight 2, but the counter goes from 0 to 4, since
    the BEFORE INSERT trigger and the route's own [UPDATE] both add the
    weight. *)
Theorem issue_upvote_insert_route_demo :
  issue_upvotes_of demo_db 20 = Some 0 /\
  select_role_weight demo_db 10 = Some 2 /\
  fst (route (post_issue_upvote 20 10) demo_db) = (200, PUpvote true 4) /\
  issue_upvotes (snd (route (post_issue_upvote 20 10) demo_db))
    = [mkIssueUpvote 20 10 (Some 2)].
Proof. vm_compute. repeat split. Qed.


(** ** Comments on issues *)

(** The code units [String.prototype.trim] removes and the regex class
    [\s] matches: ECMAScript's WhiteSpace (tab, vertical tab, form feed,
    space, U+00A0, U+FEFF and the Unicode category Zs: U+1680,
    U+2000-U+200A, U+202F, U+205F, U+3000) and LineTerminator (line feed,
    carriage return, U+2028, U+2029). *)
Definition js_space (c : Z) : bool :=
  (Z.leb 9 c && Z.leb c 13) || Z.eqb c 32 || Z.eqb c 160 || Z.eqb c 5760 ||
  (Z.leb 8192 c && Z.leb c 8202) || Z.eqb c 8232 || Z.eqb c 8233 ||
  Z.eqb c 8239 || Z.eqb c 8287 || Z.eqb c 12288 || Z.eqb c 65279.

Fixpoint trim_start (s : jsstring) : jsstring :=
  match s with
  | [] => []
  | c :: rest => if js_space c then trim_start rest else s
  end.

(** [content.trim()]. *)
Definition js_trim (s : jsstring) : jsstring :=
  rev (trim_start (rev (trim_start s))).

Definition is_high_surrogate (c : Z) : bool := Z.leb 55296 c && Z.leb c 56319.
Definition is_low_surrogate (c : Z) : bool := Z.leb 56320 c && Z.leb c 57343.

(** node-postgres sends a string parameter UTF-8 encoded, where each lone
    surrogate becomes U+FFFD. *)
Fixpoint utf8_scrub (s : jsstring) : jsstring :=
  match s with
  | [] => []
  | c :: rest =>
      if is_high_surrogate c then
        match rest with
        | c2 :: rest' =>
            if is_low_surrogate c2 then c :: c2 :: utf8_scrub rest'
            else 65533 :: utf8_scrub rest
        | [] => [65533]
        end
      else if is_low_surrogate c then 65533 :: utf8_scrub rest
      else c :: utf8_scrub rest
  end.

(** A [text] parameter as PostgreSQL stores it: the value cannot hold the
    character U+0000, which makes the statement fail. *)
Definition pg_text (s : jsstring) : option jsstring :=
  if existsb (Z.eqb 0) s then None else Some (utf8_scrub s).

(** [!content] on a string: true for the empty string only. *)
Definition js_empty (s : jsstring) : bool :=
  match s with [] => true | _ :: _ => false end.

(** [trg_inc_issue_comment_count], fired [AFTER INSERT] on [comments]:
    [COALESCE(comment_count, 0) + 1], an [int4] sum. *)
Definition trg_inc_issue_comment_count (d : db) (new : comment) : option db :=
  if rows_in_int4 (fun x => Nat.eqb (issue_id x) (c_issue_id new))
       (fun x => coalesce0 (issue_comment_count x) + 1) (issues d)
  then Some (update_issue (c_issue_id new)
               (fun x => set_issue_comment_count x
                           (Some (coalesce0 (issue_comment_count x) + 1))) d)
  else None.

(** [INSERT INTO comments (issue_id, user_id, content) VALUES ($1, $2, $3)
     RETURNING ...], with its foreign keys and its AFTER trigger. *)
Definition insert_comment (i u : uuid) (content : jsstring) (d : db)
  : option (comment * db) :=
  match pg_text content with
  | None => None
  | Some t =>
      let '(cid, d1) := fresh_uuid d in
      let row := mkComment cid i u t in
      if is_some (find_issue d1 i) && is_some (find_user d1 u)
      then match trg_inc_issue_comment_count (with_comments d1 (comments d1 ++ [row])) row with
           | Some d2 => Some (row, d2)
           | None => None
           end
      else None
  end.

(** [UPDATE issues SET comment_count = comment_count + 1 WHERE issue_id
     = $1]: NULL stays NULL; the [int4] sum out of range raises. *)
Definition update_issue_comment_count (i : uuid) (d : db) : option (unit * db) :=
  if forallb (fun x => negb (Nat.eqb (issue_id x) i) ||
                       match issue_comment_count x with
                       | Some n => in_int4 (n + 1)
                       | None => true
                       end) (issues d)
  then Some (tt, update_issue i (fun x =>
                   set_issue_comment_count x
                     (option_map (fun n => n + 1) (issue_comment_count x))) d)
  else None.

(** [POST /issues/:id/comments]; [content] is [req.body.content]
    ([None] when absent or null). *)
Definition post_issue_comment (id userId : uuid) (content : option jsstring)
  : M response :=
  match content with
  | None => ret (400, PError "Comment content is required")
  | Some s =>
      if js_empty s || (List.length (js_trim s) =? 0)%nat
      then ret (400, PError "Comment content is required")
      else
        c <- sql (insert_comment id userId (js_trim s)) ;;
        usr <- query (fun d => find_user d userId) ;;
        _ <- sql (update_issue_comment_count id) ;;
        _ <- rows0 usr ;;
        ret (201, PComment c)
  end.

Definition issue_comments_of (d : db) (i : uuid) : option (option Z) :=
  option_map issue_comment_count (find_issue d i).

(** Content that is empty after trimming is refused with 400 and leaves
    the database as it was. *)
Lemma post_issue_comment_blank (d : db) (i u : uuid) (s : jsstring) :
  List.length (js_trim s) = 0%nat ->
  route (post_issue_comment i u (Some s)) d
  = ((400, PError "Comment content is required"), d).
Proof.
  intros H; unfold route, post_issue_comment.
  rewrite H, orb_true_r; reflexivity.
Qed.

(** C9 through [POST /issues/:id/comments]: blank content is refused;
    otherwise the comment row is inserted (content trimmed) and the
    counter goes from 0 to 2, since the AFTER INSERT trigger and the
    route's own [UPDATE] both add 1. *)
Theorem issue_comment_route_demo :
  route (post_issue_comment 20 10 (Some (js_str " 	 "))) demo_db
    = ((400, PError "Comment content is required"), demo_db) /\
  issue_comments_of demo_db 20 = Some (Some 0) /\
  fst (route (post_issue_comment 20 10 (Some (js_str "  pothole "))) demo_db)
    = (201, PComment (mkComment 100 20 10 (js_str "pothole"))) /\
  comments (snd (route (post_issue_comment 20 10 (Some (js_str "  pothole "))) demo_db))
    = [mkComment 100 20 10 (js_str "pothole")] /\
  issue_comments_of (snd (route (post_issue_comment 20 10 (Some (js_str "  pothole "))) demo_db)) 20
    = Some (Some 2).
Proof. vm_compute. repeat split. Qed.


(** ** Group upvotes, statement by statement

    [POST /groups/:id/upvote] awaits one [pool.query] after another;
    between two of them the event loop may run other requests.  The
    handler is therefore embedded as a small machine whose steps are its
    statements, so that several requests can be interleaved. *)

(** [trg_group_upvote_after_insert], fired [BEFORE INSERT] on
    [group_upvotes]; the [int4] sum out of range raises. *)
Definition trg_group_upvote_after_insert (d : db) (new : group_upvote)
  : option (group_upvote * db) :=
  let w := match select_role_weight d (gu_user_id new) with
           | Some w => w
           | None => 1
           end in
  if rows_in_int4 (fun x => Nat.eqb (group_id x) (gu_group_id new))
       (fun x => group_upvote_count x + w) (groups d)
  then Some (mkGroupUpvote (gu_group_id new) (gu_user_id new) (Some w),
             update_group (gu_group_id new)
               (fun x => set_group_upvote_count x (group_upvote_count x + w)) d)
  else None.

(** [trg_group_upvote_after_delete], fired [AFTER DELETE] on
    [group_upvotes]; the difference is computed in [int4]. *)
Definition trg_group_upvote_after_delete (d : db) (old : group_upvote) : option db :=
  let w := match gu_upvote_weight old with Some w => w | None => 1 end in
  if rows_in_int4 (fun x => Nat.eqb (group_id x) (gu_group_id old))
       (fun x => group_upvote_count x - w) (groups d)
  then Some (update_group (gu_group_id old)
               (fun x => set_group_upvote_count x (Z.max (group_upvote_count x - w) 0)) d)
  else None.

Definition gu_matches (g u : uuid) (r : group_upvote) : bool :=
  Nat.eqb (gu_group_id r) g && Nat.eqb (gu_user_id r) u.

Definition insert_group_upvote (g u : uuid) (d : db) : option (unit * db) :=
  match trg_group_upvote_after_insert d (mkGroupUpvote g u (Some 1)) with
  | None => None
  | Some (row, d1) =>
      if is_some (find_group d1 g) && is_some (find_user d1 u)
         && negb (existsb (gu_matches g u) (group_upvotes d1))
      then Some (tt, with_group_upvotes d1 (group_upvotes d1 ++ [row]))
      else None
  end.

Definition delete_group_upvote (g u : uuid) (d : db) : option (unit * db) :=
  let gone := filter (gu_matches g u) (group_upvotes d) in
  let kept := filter (fun r => negb (gu_matches g u r)) (group_upvotes d) in
  match fold_triggers trg_group_upvote_after_delete gone (with_group_upvotes d kept) with
  | Some d' => Some (tt, d')
  | None => None
  end.

(** [UPDATE groups SET upvote_count = f(upvote_count) WHERE group_id = $1
     RETURNING upvote_count], computed in [int4]. *)
Definition update_group_upvote_count_returning (g : uuid) (f : Z -> Z) (d : db)
  : option (option Z * db) :=
  if rows_in_int4 (fun x => Nat.eqb (group_id x) g) (fun x => f (group_upvote_count x))
       (groups d)
  then
    let d' := update_group g (fun x => set_group_upvote_count x (f (group_upvote_count x))) d in
    Some (option_map group_upvote_count (find_group d' g), d')
  else None.

(** Where the handler stands: before the statement it is about to run. *)
Inductive group_upvote_pc : Type :=
| GU_Select
| GU_Delete
| GU_Decrement
| GU_Insert
| GU_Increment
| GU_Done (r : response).

Record group_upvote_req := mkGroupUpvoteReq {
  gur_group : uuid; gur_user : uuid; gur_pc : group_upvote_pc }.

Definition internal_error : response := (500, PError "Internal server error").

(** One statement of [POST /groups/:id/upvote]. *)
Definition group_upvote_step (t : group_upvote_req) (d : db) : group_upvote_req * db :=
  let g := gur_group t in
  let u := gur_user t in
  let go pc := mkGroupUpvoteReq g u pc in
  match gur_pc t with
  | GU_Select =>
      (* SELECT group_upvote_id FROM group_upvotes WHERE group_id = $1 AND user_id = $2 *)
      if existsb (gu_matches g u) (group_upvotes d)
      then (go GU_Delete, d) else (go GU_Insert, d)
  | GU_Delete =>
      match delete_group_upvote g u d with
      | Some (_, d') => (go GU_Decrement, d')
      | None => (go (GU_Done internal_error), d)
      end
  | GU_Decrement =>
      (* UPDATE groups SET upvote_count = upvote_count - 1 ... *)
      match update_group_upvote_count_returning g (fun c => c - 1) d with
      | Some (Some n, d') => (go (GU_Done (200, PUpvote false n)), d')
      | Some (None, d') => (go (GU_Done internal_error), d')
      | None => (go (GU_Done internal_error), d)
      end
  | GU_Insert =>
      match insert_group_upvote g u d with
      | Some (_, d') => (go GU_Increment, d')
      | None => (go (GU_Done internal_error), d)
      end
  | GU_Increment =>
      (* UPDATE groups SET upvote_count = upvote_count + 1 ... *)
      match update_group_upvote_count_returning g (fun c => c + 1) d with
      | Some (Some n, d') => (go (GU_Done (200, PUpvote true n)), d')
      | Some (None, d') => (go (GU_Done internal_error), d')
      | None => (go (GU_Done internal_error), d)
      end
  | GU_Done _ => (t, d)
  end.

(** The handler run alone: at most three statements. *)
Fixpoint group_upvote_run (fuel : nat) (t : group_upvote_req) (d : db)
  : group_upvote_req * db :=
  match fuel with
  | O => (t, d)
  | S k => let '(t', d') := group_upvote_step t d in group_upvote_run k t' d'
  end.

Definition post_group_upvote (g u : uuid) (d : db) : group_upvote_req * db :=
  group_upvote_run 3 (mkGroupUpvoteReq g u GU_Select) d.

Fixpoint replace_nth {A} (n : nat) (x : A) (l : list A) : list A :=
  match l, n with
  | [], _ => []
  | _ :: rest, O => x :: rest
  | y :: rest, S k => y :: replace_nth k x rest
  end.

(** Requests in flight, advanced one statement at a time in the order of
    [sched] (indices into the list of requests). *)
Fixpoint run_schedule (sched : list nat) (ts : list group_upvote_req) (d : db)
  : list group_upvote_req * db :=
  match sched with
  | [] => (ts, d)
  | n :: rest =>
      match nth_error ts n with
      | Some t => let '(t', d') := group_upvote_step t d in
                  run_schedule rest (replace_nth n t' ts) d'
      | None => run_schedule rest ts d
      end
  end.

Definition group_upvotes_of (d : db) (g : uuid) : option Z :=
  option_map group_upvote_count (find_group d g).

(** User 10 (weight 2) has upvoted group 30: counter 2 (trigger) + 1
    (route) = 3. *)
Definition demo_group_voted : db := snd (post_group_upvote 30 10 demo_db).

Example demo_group_vote :
  gur_pc (fst (post_group_upvote 30 10 demo_db)) = GU_Done (200, PUpvote true 3) /\
  gur_pc (fst (post_group_upvote 30 10 demo_group_voted)) = GU_Done (200, PUpvote false 0).
Proof. vm_compute. split; reflexivity. Qed.

(** C3: two [POST /groups/30/upvote] requests of user 10 in flight
    together (say a double tap), interleaved statement by statement: both
    see the vote, the first [DELETE] removes it (trigger: 3 - 2 = 1), the
    second deletes nothing, and both unfloored [upvote_count - 1] updates
    run, driving the counter to -1. *)
Theorem group_upvote_counter_negative :
  group_upvotes_of demo_group_voted 30 = Some 3 /\
  let req := mkGroupUpvoteReq 30 10 GU_Select in
  let '(ts, d) := run_schedule [0; 1; 0; 1; 0; 1]%nat [req; req] demo_group_voted in
  group_upvotes_of d 30 = Some (-1) /\
  map gur_pc ts = [GU_Done (200, PUpvote false 0); GU_Done (200, PUpvote false (-1))].
Proof. vm_compute. repeat split. Qed.

(** ** Group join requests *)

(** [trg_update_issue_group_count], fired [AFTER UPDATE OF group_id] on
    [issues] when the old and new [group_id] differ.  [issue_count] is
    nullable: [GREATEST(NULL - 1, 0)] is 0, [NULL + 1] stays NULL. *)
Definition trg_update_issue_group_count (d : db) (old new : option uuid) : db :=
  let d1 := match old with
            | Some g => update_group g (fun x => set_group_issue_count x
                          (Some (match group_issue_count x with
                                 | Some n => Z.max (n - 1) 0
                                 | None => 0
                                 end))) d
            | None => d
            end in
  match new with
  | Some g => update_group g (fun x => set_group_issue_count x
                (option_map (fun n => n + 1) (group_issue_count x))) d1
  | None => d1
  end.

Definition opt_uuid_eqb (a b : option uuid) : bool :=
  match a, b with
  | Some x, Some y => Nat.eqb x y
  | None, None => true
  | _, _ => false
  end.

(** [UPDATE issues SET group_id = $1 WHERE issue_id = $2]: checks the
    foreign key to [groups], then fires the trigger for the updated row. *)
Definition update_issue_group_id (i : uuid) (g : option uuid) (d : db)
  : option (unit * db) :=
  match find_issue d i with
  | None => Some (tt, d)
  | Some x =>
      if match g with Some g' => is_some (find_group d g') | None => true end
      then
        let d1 := update_issue i (fun y => set_issue_group_id y g) d in
        if opt_uuid_eqb (issue_group_id x) g then Some (tt, d1)
        else Some (tt, trg_update_issue_group_count d1 (issue_group_id x) g)
      else None
  end.

Definition gjr_key (r : group_join_request) : uuid * uuid :=
  (gjr_issue_id r, gjr_group_id r).

Definition gjr_for (i g : uuid) (r : group_join_request) : bool :=
  Nat.eqb (gjr_issue_id r) i && Nat.eqb (gjr_group_id r) g.

(** [INSERT INTO group_join_request (issue_id, group_id,
     requested_by_group, status, requested_at[, handled_at]) VALUES ...
     RETURNING ...]: foreign keys and
    [CONSTRAINT group_join_request_issue_id_group_id_key UNIQUE (issue_id, group_id)]. *)
Definition insert_group_join_request (i g : uuid) (by_group : bool)
  (status : string) (handled : bool) (d : db)
  : option (group_join_request * db) :=
  let '(rid, d1) := fresh_uuid d in
  let row := mkGJR rid i g by_group status (now d1)
               (if handled then Some (now d1) else None) in
  if is_some (find_issue d1 i) && is_some (find_group d1 g)
     && negb (existsb (gjr_for i g) (group_join_requests d1))
  then Some (row, with_group_join_requests d1 (group_join_requests d1 ++ [row]))
  else None.

(** [POST /group-join-requests]; the body's [issue_id], [group_id] and
    [requested_by_group] ([None] when absent or, for the flag, not a
    boolean). *)
Definition post_group_join_request (issue_id0 group_id0 : option uuid)
  (requested_by_group : option bool) (userId : uuid) : M response :=
  match issue_id0, group_id0, requested_by_group with
  | Some i, Some g, Some by_group =>
      iss <- query (fun d => find_issue d i) ;;
      match iss with
      | None => ret (404, PError "Issue not found")
      | Some ix =>
      grp <- query (fun d => find_group d g) ;;
      match grp with
      | None => ret (404, PError "Group not found")
      | Some gx =>
      let issueOwnerId := issue_user_id ix in
      let groupOwnerId := group_owner_id gx in
      if by_group && negb (Nat.eqb groupOwnerId userId)
      then ret (403, PError "Only group owner can make this request")
      else if negb by_group && negb (Nat.eqb issueOwnerId userId)
      then ret (403, PError "Only issue owner can make this request")
      else
      existingLink <- query (fun d => existsb (fun x =>
                        Nat.eqb (issue_id x) i && opt_uuid_eqb (issue_group_id x) (Some g))
                        (issues d)) ;;
      if existingLink then ret (400, PError "Issue is already in this group") else
      existingRequest <- query (fun d => existsb (fun r =>
                           gjr_for i g r && String.eqb (gjr_status r) "pending")
                           (group_join_requests d)) ;;
      if existingRequest then ret (400, PError "A pending request already exists") else
      if Nat.eqb groupOwnerId issueOwnerId && Nat.eqb groupOwnerId userId
      then
        _ <- sql (update_issue_group_id i (Some g)) ;;
        r <- sql (insert_group_join_request i g by_group "approved" true) ;;
        ret (201, PJoinRequest r true)
      else
        r <- sql (insert_group_join_request i g by_group "pending" false) ;;
        ret (201, PJoinRequest r false)
      end
      end
  | _, _, _ =>
      ret (400, PError "issue_id, group_id, and requested_by_group are required")
  end.

(** [SELECT gjr.*, i.user_id as issue_owner_id, g.owner_id as
     group_owner_id FROM group_join_request gjr JOIN issues i ... JOIN
     groups g ... WHERE gjr.req_id = $1]. *)
Definition select_request_with_owners (d : db) (rid : uuid)
  : option (group_join_request * uuid * uuid) :=
  match find (fun r => Nat.eqb (gjr_req_id r) rid) (group_join_requests d) with
  | Some r =>
      match find_issue d (gjr_issue_id r), find_group d (gjr_group_id r) with
      | Some ix, Some gx => Some (r, issue_user_id ix, group_owner_id gx)
      | _, _ => None
      end
  | None => None
  end.

(** [UPDATE group_join_request SET status = s, handled_at = NOW()
     WHERE req_id = $1]. *)
Definition update_request_status (rid : uuid) (s : string) (d : db) : db :=
  with_group_join_requests d
    (map (fun r => if Nat.eqb (gjr_req_id r) rid
                   then mkGJR (gjr_req_id r) (gjr_issue_id r) (gjr_group_id r)
                              (gjr_requested_by_group r) s (gjr_requested_at r)
                              (Some (now d))
                   else r) (group_join_requests d)).

(** [PUT /group-join-requests/:id]. *)
Definition put_group_join_request (requestId : uuid) (status : string)
  (userId : uuid) : M response :=
  if negb (String.eqb status "accepted" || String.eqb status "declined")
  then ret (400, PError "Status must be 'accepted' or 'declined'")
  else
  rq <- query (fun d => select_request_with_owners d requestId) ;;
  match rq with
  | None => ret (404, PError "Request not found")
  | Some (request, issue_owner_id, group_owner_id) =>
      if negb (String.eqb (gjr_status request) "pending")
      then ret (400, PError "Request is not pending")
      else
      let canAct := if gjr_requested_by_group request
                    then Nat.eqb issue_owner_id userId
                    else Nat.eqb group_owner_id userId in
      if negb canAct then ret (403, PError "Not authorized to act on this request")
      else
      _ <- exec (update_request_status requestId status) ;;
      _ <- (if String.eqb status "accepted"
            then sql (update_issue_group_id (gjr_issue_id request) (Some (gjr_group_id request)))
            else ret tt) ;;
      ret (200, PMessage ("Request " ++ status))
  end.

(** [DELETE /group-join-requests/:id]. *)
Definition delete_group_join_request (requestId userId : uuid) : M response :=
  rq <- query (fun d => select_request_with_owners d requestId) ;;
  match rq with
  | None => ret (404, PError "Request not found")
  | Some (request, issue_owner_id, group_owner_id) =>
      if negb (String.eqb (gjr_status request) "pending")
      then ret (400, PError "Request is not pending")
      else
      (* Check authorization - requester can cancel *)
      let canCancel := if gjr_requested_by_group request
                       then Nat.eqb group_owner_id userId
                       else Nat.eqb issue_owner_id userId in
      if negb canCancel then ret (403, PError "Not authorized to cancel this request")
      else
      _ <- exec (update_request_status requestId "cancelled") ;;
      ret (200, PMessage "Request cancelled")
  end.

(** SQL three-valued [<>] and [AND]; [IF] takes its branch only on TRUE. *)
Definition sql_neq (a : uuid) (b : option uuid) : option bool :=
  option_map (fun y => negb (Nat.eqb a y)) b.

Definition sql_and (a b : option bool) : option bool :=
  match a, b with
  | Some false, _ | _, Some false => Some false
  | Some true, Some true => Some true
  | _, _ => None
  end.

Definition sql_if_true (c : option bool) : bool :=
  match c with Some true => true | _ => false end.

(** [CALL cancel_group_join_request(p_req_id, p_performer_user_id)]
    ([src/schema.sql]); a [RAISE EXCEPTION] aborts it whole. *)
Definition cancel_group_join_request (p_req_id p_performer_user_id : uuid)
  (d : db) : option (unit * db) :=
  match find (fun r => Nat.eqb (gjr_req_id r) p_req_id) (group_join_requests d) with
  | None => None
  | Some r =>
      let v_issue_author := option_map issue_user_id (find_issue d (gjr_issue_id r)) in
      let v_group_owner := option_map group_owner_id (find_group d (gjr_group_id r)) in
      let refuse :=
        if gjr_requested_by_group r
        then sql_and (sql_neq p_performer_user_id v_issue_author)
                     (sql_neq p_performer_user_id v_group_owner)
        else sql_and (sql_neq p_performer_user_id v_group_owner)
                     (sql_neq p_performer_user_id v_issue_author) in
      if sql_if_true refuse then None
      else Some (tt, update_request_status p_req_id "cancelled" d)
  end.

Definition find_request (d : db) (rid : uuid) : option group_join_request :=
  find (fun r => Nat.eqb (gjr_req_id r) rid) (group_join_requests d).

Lemma find_request_update_status (d : db) (rid : uuid) (s : string) :
  find_request (update_request_status rid s d) rid
  = option_map (fun r => mkGJR (gjr_req_id r) (gjr_issue_id r) (gjr_group_id r)
                              (gjr_requested_by_group r) s (gjr_requested_at r)
                              (Some (now d))) (find_request d rid).
Proof.
  unfold find_request, update_request_status; simpl.
  apply find_map_update; intros x; reflexivity.
Qed.

(** C4 (amended): on a pending request, [DELETE /group-join-requests/:id]
    cancels it (status ['cancelled'], [handled_at] stamped) exactly when
    the actor owns the side that initiated it, the group's owner when
    [requested_by_group], the issue's owner otherwise; anyone else, the
    other owner included, gets 403 and nothing changes.  The stored
    procedure [cancel_group_join_request], which no route calls, lets
    either owner cancel. *)
Theorem cancel_join_request_authorization (d : db) (rid u : uuid)
  (r : group_join_request) (io go : uuid) :
  select_request_with_owners d rid = Some (r, io, go) ->
  gjr_status r = "pending" ->
  let initiator_owner := if gjr_requested_by_group r then go else io in
  (Nat.eqb initiator_owner u = true ->
     route (delete_group_join_request rid u) d
     = ((200, PMessage "Request cancelled"), update_request_status rid "cancelled" d) /\
     option_map (fun x => (gjr_status x, gjr_handled_at x))
       (find_request (update_request_status rid "cancelled" d) rid)
     = Some ("cancelled", Some (now d))) /\
  (Nat.eqb initiator_owner u = false ->
     route (delete_group_join_request rid u) d
     = ((403, PError "Not authorized to cancel this request"), d)) /\
  cancel_group_join_request rid u d
  = if Nat.eqb io u || Nat.eqb go u
    then Some (tt, update_request_status rid "cancelled" d) else None.
Proof.
  intros Hsel Hst initiator_owner.
  unfold select_request_with_owners in Hsel.
  destruct (find (fun r0 => Nat.eqb (gjr_req_id r0) rid) (group_join_requests d))
    as [r'|] eqn:Hf; [|discriminate].
  destruct (find_issue d (gjr_issue_id r')) as [ix|] eqn:Hix; [|discriminate].
  destruct (find_group d (gjr_group_id r')) as [gx|] eqn:Hgx; [|discriminate].
  injection Hsel as <- <- <-.
  assert (Hsel : select_request_with_owners d rid = Some (r', issue_user_id ix, group_owner_id gx))
    by (unfold select_request_with_owners; rewrite Hf, Hix, Hgx; reflexivity).
  split; [|split].
  - intros Hok. split.
    + unfold route, delete_group_join_request, bind, query, exec, ret.
      rewrite Hsel, Hst; simpl. subst initiator_owner.
      destruct (gjr_requested_by_group r'); rewrite Hok; reflexivity.
    + rewrite find_request_update_status. unfold find_request; rewrite Hf; reflexivity.
  - intros Hko.
    unfold route, delete_group_join_request, bind, query, ret.
    rewrite Hsel, Hst; simpl. subst initiator_owner.
    destruct (gjr_requested_by_group r'); rewrite Hko; reflexivity.
  - unfold cancel_group_join_request. rewrite Hf, Hix, Hgx; simpl.
    rewrite (Nat.eqb_sym u (issue_user_id ix)), (Nat.eqb_sym u (group_owner_id gx)).
    destruct (gjr_requested_by_group r'),
      (Nat.eqb (issue_user_id ix) u), (Nat.eqb (group_owner_id gx) u); reflexivity.
Qed.

(** Issue owner 10 asks for issue 20 to join group 30 (owned by 11): a
    pending request with id 100. *)
Definition demo_pending : db :=
  snd (route (post_group_join_request (Some 20%nat) (Some 30%nat) (Some false) 10) demo_db).

Definition demo_pending_row : group_join_request :=
  mkGJR 100 20 30 false "pending" 0 None.

Example demo_pending_created :
  fst (route (post_group_join_request (Some 20%nat) (Some 30%nat) (Some false) 10) demo_db)
  = (201, PJoinRequest demo_pending_row false) /\
  group_join_requests demo_pending = [demo_pending_row].
Proof. vm_compute. split; reflexivity. Qed.

(** C4 as stated fails: group 30's owner (user 11) may not cancel the
    pending request the issue's owner initiated. *)
Theorem cancel_by_other_owner_forbidden :
  select_request_with_owners demo_pending 100 = Some (demo_pending_row, 10%nat, 11%nat) /\
  route (delete_group_join_request 100 11) demo_pending
  = ((403, PError "Not authorized to cancel this request"), demo_pending).
Proof. vm_compute. split; reflexivity. Qed.

Lemma cancel_join_request_authorization_witness :
  route (delete_group_join_request 100 10) demo_pending
  = ((200, PMessage "Request cancelled"),
     update_request_status 100 "cancelled" demo_pending) /\
  option_map (fun x => (gjr_status x, gjr_handled_at x))
    (find_request (update_request_status 100 "cancelled" demo_pending) 100)
  = Some ("cancelled", Some (now demo_pending)).
Proof.
  apply (cancel_join_request_authorization demo_pending 100 10 demo_pending_row 10 11).
  - vm_compute; reflexivity.
  - reflexivity.
  - reflexivity.
Defined.

(** Request 100 cancelled by the issue owner. *)
Definition demo_cancelled : db :=
  snd (route (delete_group_join_request 100 10) demo_pending).

(** C6: while request 100 is pending a second submission for (20, 30) is
    refused with 400; once it is cancelled, the resubmission passes the
    route's pending-only check but its [INSERT] violates
    [UNIQUE (issue_id, group_id)]: 500, no new row. *)
Theorem resubmit_after_cancel_fails :
  fst (route (post_group_join_request (Some 20%nat) (Some 30%nat) (Some false) 10) demo_pending)
  = (400, PError "A pending request already exists") /\
  map gjr_status (group_join_requests demo_cancelled) = ["cancelled"] /\
  route (post_group_join_request (Some 20%nat) (Some 30%nat) (Some false) 10) demo_cancelled
  = (internal_error, demo_cancelled).
Proof. vm_compute. repeat split. Qed.

(** User 10 links issue 20 to its own group 31. *)
Definition demo_linked : db :=
  snd (route (post_group_join_request (Some 20%nat) (Some 31%nat) (Some false) 10) demo_db).

(** Group 30's owner invites issue 20 (request 101) and user 10 accepts. *)
Definition demo_moved : db :=
  let d1 := snd (route (post_group_join_request (Some 20%nat) (Some 30%nat) (Some true) 11) demo_linked) in
  snd (route (put_group_join_request 101 "accepted" 10) d1).

Definition issue_group_of (d : db) (i : uuid) : option (option uuid) :=
  option_map issue_group_id (find_issue d i).

(** C5: self-linking.  User 10 owns issue 20 and group 31: the request
    is created approved and the issue moves to group 31 at once
    ([demo_linked]).  Group 30's owner then invites the issue, user 10
    accepts, and the issue moves to group 30 ([demo_moved]).  Linking
    issue 20 back to group 31 passes every check of the route (not in the
    group, nothing pending), updates [group_id], and then its [INSERT]
    hits [UNIQUE (issue_id, group_id)] (the approved row of the first
    link): 500, no request row is created, the move is kept. *)
Theorem self_link_auto_approval_demo :
  fst (route (post_group_join_request (Some 20%nat) (Some 31%nat) (Some false) 10) demo_db)
  = (201, PJoinRequest (mkGJR 100 20 31 false "approved" 0 (Some 0%nat)) true) /\
  issue_group_of demo_linked 20 = Some (Some 31%nat) /\
  issue_group_of demo_moved 20 = Some (Some 30%nat) /\
  fst (route (post_group_join_request (Some 20%nat) (Some 31%nat) (Some false) 10) demo_moved)
  = internal_error /\
  issue_group_of (snd (route (post_group_join_request (Some 20%nat) (Some 31%nat) (Some false) 10) demo_moved)) 20
  = Some (Some 31%nat) /\
  group_join_requests (snd (route (post_group_join_request (Some 20%nat) (Some 31%nat) (Some false) 10) demo_moved))
  = group_join_requests demo_moved.
Proof. vm_compute. repeat split. Qed.

(** ** Role change requests *)

Definition rcr_pending (r : role_change_request) : bool :=
  String.eqb (rcr_status r) "pending".

(** [INSERT INTO role_change_request (user_id, requested_role_id[, status])
     VALUES ... RETURNING ...]: status defaults to ['pending']; foreign
    keys to [users] and [roles]. *)
Definition insert_role_change_request (u r : uuid) (d : db)
  : option (role_change_request * db) :=
  let '(rid, d1) := fresh_uuid d in
  let row := mkRCR rid u r "pending" in
  if is_some (find_user d1 u) && is_some (find_role d1 r)
  then Some (row, with_role_change_requests d1 (role_change_requests d1 ++ [row]))
  else None.

(** [POST /role-change-request] (the first of its two identical
    registrations, the one Express dispatches to). *)
Definition post_role_change_request (requested_role_id : option uuid) (userId : uuid)
  : M response :=
  match requested_role_id with
  | None => ret (400, PError "requested_role_id is required")
  | Some r =>
      roleCheck <- query (fun d => find_role d r) ;;
      match roleCheck with
      | None => ret (404, PError "Role not found")
      | Some _ =>
          userRole <- query (fun d => find_user d userId) ;;
          ur <- rows0 userRole ;;
          if Nat.eqb (user_role_id ur) r
          then ret (400, PError "You already have this role")
          else
          existingRequest <- query (fun d => existsb (fun q =>
                               Nat.eqb (rcr_user_id q) userId
                               && Nat.eqb (rcr_requested_role_id q) r && rcr_pending q)
                               (role_change_requests d)) ;;
          if existingRequest
          then ret (400, PError "You already have a pending request for this role")
          else
          row <- sql (insert_role_change_request userId r) ;;
          ret (201, PRoleRequest row)
      end
  end.

(** [POST /role-change-requests]. *)
Definition post_role_change_requests (requested_role_id : option uuid) (userId : uuid)
  : M response :=
  match requested_role_id with
  | None => ret (400, PError "requested_role_id is required")
  | Some r =>
      existingRequest <- query (fun d => existsb (fun q =>
                           Nat.eqb (rcr_user_id q) userId && rcr_pending q)
                           (role_change_requests d)) ;;
      if existingRequest
      then ret (400, PError "You already have a pending role change request")
      else
      roleCheck <- query (fun d => find_role d r) ;;
      match roleCheck with
      | None => ret (404, PError "Requested role not found")
      | Some _ =>
          row <- sql (insert_role_change_request userId r) ;;
          ret (201, PRoleRequest row)
      end
  end.

Definition has_pending_request (d : db) (u : uuid) : bool :=
  existsb (fun q => Nat.eqb (rcr_user_id q) u && rcr_pending q) (role_change_requests d).

(** A user with a pending request for role 2 asks for role 3 through
    [POST /role-change-request]. *)
Definition demo_role_pending : db :=
  snd (route (post_role_change_request (Some 2%nat) 10) demo_db).

(** C8 (code bug): [POST /role-change-requests] accepts a request for
    the role the user already holds: user 10 holds role 1 and gets a
    pending request for role 1 (201), where the contract asks for a
    Conflict; its sibling [POST /role-change-request] makes that check.
    The sibling in turn only refuses a pending request for the same role:
    user 10, with a pending request for role 2, gets a second pending
    request, for role 3. *)
Theorem role_change_pending_not_blocking :
  has_pending_request demo_role_pending 10 = true /\
  fst (route (post_role_change_request (Some 3%nat) 10) demo_role_pending)
    = (201, PRoleRequest (mkRCR 101 10 3 "pending")) /\
  fst (route (post_role_change_requests (Some 1%nat) 10) demo_db)
    = (201, PRoleRequest (mkRCR 100 10 1 "pending")).
Proof. vm_compute. repeat split; reflexivity. Qed.

(** ** Deletions that cascade into [group_join_request] *)

(** [DELETE FROM issues WHERE issue_id = $1] ([DELETE /admin/issues/:id]):
    [ON DELETE CASCADE] from [issue_upvotes], [comments] and
    [group_join_request]; [trg_delete_issue_group_count] decrements the
    old group's [issue_count] with [GREATEST(issue_count - 1, 0)].  The
    delete triggers of the cascaded votes and comments update the issue
    row that is gone, so they change nothing. *)
Definition delete_issue (i : uuid) (d : db) : db :=
  match find_issue d i with
  | None => d
  | Some x =>
      let d1 := mkDb (roles d) (users d)
                  (filter (fun y => negb (Nat.eqb (issue_id y) i)) (issues d))
                  (groups d)
                  (filter (fun v => negb (Nat.eqb (iu_issue_id v) i)) (issue_upvotes d))
                  (group_upvotes d)
                  (filter (fun c => negb (Nat.eqb (c_issue_id c) i)) (comments d))
                  (group_comments d)
                  (filter (fun r => negb (Nat.eqb (gjr_issue_id r) i)) (group_join_requests d))
                  (role_change_requests d) (next_uuid d) (now d) in
      trg_update_issue_group_count d1 (issue_group_id x) None
  end.

(** [DELETE FROM groups WHERE group_id = $1] ([DELETE /admin/groups/:id]):
    [issues.group_id] is [ON DELETE SET NULL]; [group_upvotes],
    [group_comments] and [group_join_request] cascade.  The triggers these
    actions fire update the deleted group only. *)
Definition delete_group (g : uuid) (d : db) : db :=
  mkDb (roles d) (users d)
       (map (fun x => if opt_uuid_eqb (issue_group_id x) (Some g)
                      then set_issue_group_id x None else x) (issues d))
       (filter (fun x => negb (Nat.eqb (group_id x) g)) (groups d))
       (issue_upvotes d)
       (filter (fun v => negb (Nat.eqb (gu_group_id v) g)) (group_upvotes d))
       (comments d)
       (filter (fun c => negb (Nat.eqb (gc_group_id c) g)) (group_comments d))
       (filter (fun r => negb (Nat.eqb (gjr_group_id r) g)) (group_join_requests d))
       (role_change_requests d) (next_uuid d) (now d).

(** The states the application can reach, starting from a database with
    no join request.  The join-request routes, the stored procedure and
    the two admin deletions are the statements of the program that write
    [group_join_request]; every other statement leaves that table as it
    is ([reach_other]). *)
Inductive reachable : db -> Prop :=
| reach_init d :
    group_join_requests d = [] -> reachable d
| reach_post d i g b u :
    reachable d -> reachable (snd (route (post_group_join_request i g b u) d))
| reach_put d rid s u :
    reachable d -> reachable (snd (route (put_group_join_request rid s u) d))
| reach_delete d rid u :
    reachable d -> reachable (snd (route (delete_group_join_request rid u) d))
| reach_cancel d d' rid u :
    reachable d -> cancel_group_join_request rid u d = Some (tt, d') -> reachable d'
| reach_delete_issue d i :
    reachable d -> reachable (delete_issue i d)
| reach_delete_group d g :
    reachable d -> reachable (delete_group g d)
| reach_other d d' :
    reachable d -> group_join_requests d' = group_join_requests d -> reachable d'.

(** At most one request row per (issue, group) pair. *)
Definition gjr_unique (d : db) : Prop :=
  NoDup (map gjr_key (group_join_requests d)).

(** A computation that keeps [gjr_unique]. *)
Definition keeps_unique {A} (m : M A) : Prop :=
  forall d, gjr_unique d -> gjr_unique (snd (m d)).

Section JoinRequestUniqueness.

Lemma gjr_update_group (g : uuid) (f : group -> group) (d : db) :
  group_join_requests (update_group g f d) = group_join_requests d.
Proof. reflexivity. Qed.

Lemma gjr_update_issue (i : uuid) (f : issue -> issue) (d : db) :
  group_join_requests (update_issue i f d) = group_join_requests d.
Proof. reflexivity. Qed.

Lemma gjr_trg_update_issue_group_count (d : db) (old new : option uuid) :
  group_join_requests (trg_update_issue_group_count d old new) = group_join_requests d.
Proof. destruct old, new; reflexivity. Qed.

Lemma gjr_update_issue_group_id (i : uuid) (g : option uuid) (d d' : db) (u : unit) :
  update_issue_group_id i g d = Some (u, d') ->
  group_join_requests d' = group_join_requests d.
Proof.
  unfold update_issue_group_id. intros H.
  destruct (find_issue d i) as [x|]; [|congruence].
  destruct (match g with Some g' => is_some (find_group d g') | None => true end);
    [|discriminate].
  destruct (opt_uuid_eqb (issue_group_id x) g); injection H as <- <-;
    [reflexivity|]. rewrite gjr_trg_update_issue_group_count. reflexivity.
Qed.

Lemma gjr_keys_update_request_status (rid : uuid) (s : string) (d : db) :
  map gjr_key (group_join_requests (update_request_status rid s d))
  = map gjr_key (group_join_requests d).
Proof.
  simpl. rewrite map_map. apply map_ext. intros r.
  destruct (Nat.eqb (gjr_req_id r) rid); reflexivity.
Qed.

Lemma gjr_unique_update_request_status (rid : uuid) (s : string) (d : db) :
  gjr_unique d -> gjr_unique (update_request_status rid s d).
Proof. unfold gjr_unique. rewrite gjr_keys_update_request_status. auto. Qed.

Lemma gjr_for_key (i g : uuid) (r : group_join_request) :
  gjr_for i g r = true <-> gjr_key r = (i, g).
Proof.
  unfold gjr_for, gjr_key. rewrite Bool.andb_true_iff, !Nat.eqb_eq.
  split; [intros [-> ->]; reflexivity | intros H; injection H; auto].
Qed.

Lemma not_in_keys (i g : uuid) (l : list group_join_request) :
  existsb (gjr_for i g) l = false -> ~ In (i, g) (map gjr_key l).
Proof.
  intros H Hin. apply in_map_iff in Hin as [r [Hk Hr]].
  apply gjr_for_key in Hk.
  assert (existsb (gjr_for i g) l = true) by (apply existsb_exists; eauto).
  congruence.
Qed.

Lemma NoDup_snoc {A} (l : list A) (x : A) :
  NoDup l -> ~ In x l -> NoDup (l ++ [x]).
Proof.
  induction l as [|a l IH]; simpl; intros Hl Hx.
  - constructor; [intros []|constructor].
  - inversion Hl as [|? ? Ha Hl']; subst. constructor.
    + rewrite in_app_iff. intros [H|[H|[]]]; [contradiction|].
      apply Hx. left. symmetry. exact H.
    + apply IH; [exact Hl'|]. intros H. apply Hx. right. exact H.
Qed.

Lemma gjr_keys_filter (p : group_join_request -> bool) (l : list group_join_request) :
  NoDup (map gjr_key l) -> NoDup (map gjr_key (filter p l)).
Proof.
  induction l as [|r rest IH]; [intros; constructor|].
  cbn [map filter]. intros Hnd. apply NoDup_cons_iff in Hnd as [Hr Hrest].
  specialize (IH Hrest). destruct (p r); [|exact IH].
  cbn [map]. apply NoDup_cons_iff. split; [|exact IH].
  intros Hin. apply Hr. apply in_map_iff in Hin as [x [Hx Hin]].
  apply filter_In in Hin. rewrite <- Hx. apply in_map, Hin.
Qed.

Lemma gjr_unique_insert (i g : uuid) (b : bool) (s : string) (h : bool)
  (d d' : db) (r : group_join_request) :
  insert_group_join_request i g b s h d = Some (r, d') ->
  gjr_unique d -> gjr_unique d'.
Proof.
  unfold insert_group_join_request, gjr_unique. simpl. intros H Hu.
  destruct (is_some (find_issue _ i) && is_some (find_group _ g)
            && negb (existsb (gjr_for i g) (group_join_requests d))) eqn:Hc;
    [|discriminate].
  injection H as <- <-. simpl.
  apply Bool.andb_true_iff in Hc as [_ Hc]. apply Bool.negb_true_iff in Hc.
  rewrite map_app. apply NoDup_snoc; [exact Hu|].
  apply not_in_keys. exact Hc.
Qed.

Lemma gjr_delete_issue (i : uuid) (d : db) :
  group_join_requests (delete_issue i d) = group_join_requests d \/
  group_join_requests (delete_issue i d)
  = filter (fun r => negb (Nat.eqb (gjr_issue_id r) i)) (group_join_requests d).
Proof.
  unfold delete_issue. destruct (find_issue d i); [right|left; reflexivity].
  rewrite gjr_trg_update_issue_group_count. reflexivity.
Qed.

Lemma gjr_unique_delete_issue (i : uuid) (d : db) :
  gjr_unique d -> gjr_unique (delete_issue i d).
Proof.
  unfold gjr_unique. destruct (gjr_delete_issue i d) as [-> | ->]; auto.
  apply gjr_keys_filter.
Qed.

Lemma gjr_unique_delete_group (g : uuid) (d : db) :
  gjr_unique d -> gjr_unique (delete_group g d).
Proof. apply gjr_keys_filter. Qed.

End JoinRequestUniqueness.

Section RoutesKeepUnique.

Lemma keeps_ret {A} (a : A) : keeps_unique (ret a).
Proof. intros d H. exact H. Qed.

Lemma keeps_throw {A} : keeps_unique (@throw A).
Proof. intros d H. exact H. Qed.

Lemma keeps_query {A} (f : db -> A) : keeps_unique (query f).
Proof. intros d H. exact H. Qed.

Lemma keeps_exec (f : db -> db) :
  (forall d, gjr_unique d -> gjr_unique (f d)) -> keeps_unique (exec f).
Proof. intros Hf d H. exact (Hf d H). Qed.

Lemma keeps_sql {A} (f : db -> option (A * db)) :
  (forall d d' a, f d = Some (a, d') -> gjr_unique d -> gjr_unique d') ->
  keeps_unique (sql f).
Proof.
  intros Hf d H. unfold sql. destruct (f d) as [[a d']|] eqn:E; simpl; eauto.
Qed.

Lemma keeps_rows0 {A} (o : option A) : keeps_unique (rows0 o).
Proof. destruct o; [apply keeps_ret | apply keeps_throw]. Qed.

Lemma keeps_bind {A B} (m : M A) (k : A -> M B) :
  keeps_unique m -> (forall a, keeps_unique (k a)) -> keeps_unique (bind m k).
Proof.
  intros Hm Hk d H. unfold bind. pose proof (Hm d H) as H1.
  destruct (m d) as [[a|] d']; simpl in *; auto. apply Hk. exact H1.
Qed.

Lemma route_keeps (h : M response) (d : db) :
  keeps_unique h -> gjr_unique d -> gjr_unique (snd (route h d)).
Proof.
  intros Hh H. unfold route. pose proof (Hh d H) as H1.
  destruct (h d) as [[r|] d']; exact H1.
Qed.

Lemma keeps_insert (i g : uuid) (b : bool) (s : string) (h : bool) :
  keeps_unique (sql (insert_group_join_request i g b s h)).
Proof. apply keeps_sql. intros d d' [r ?]. apply gjr_unique_insert. Qed.

Lemma keeps_update_issue_group_id (i : uuid) (g : option uuid) :
  keeps_unique (sql (update_issue_group_id i g)).
Proof.
  apply keeps_sql. intros d d' u Hu. unfold gjr_unique.
  rewrite (gjr_update_issue_group_id _ _ _ _ _ Hu). auto.
Qed.

Lemma keeps_update_request_status (rid : uuid) (s : string) :
  keeps_unique (exec (update_request_status rid s)).
Proof. apply keeps_exec. apply gjr_unique_update_request_status. Qed.

Ltac keeps :=
  repeat match goal with
  | |- keeps_unique (bind _ _) => apply keeps_bind; [|intro]
  | |- keeps_unique (ret _) => apply keeps_ret
  | |- keeps_unique (query _) => apply keeps_query
  | |- keeps_unique (rows0 _) => apply keeps_rows0
  | |- keeps_unique (sql (insert_group_join_request _ _ _ _ _)) => apply keeps_insert
  | |- keeps_unique (sql (update_issue_group_id _ _)) => apply keeps_update_issue_group_id
  | |- keeps_unique (exec (update_request_status _ _)) => apply keeps_update_request_status
  | |- keeps_unique (if ?b then _ else _) => destruct b
  | |- keeps_unique (match ?x with _ => _ end) => destruct x
  | |- keeps_unique (let _ := _ in _) => cbv zeta
  end.

Lemma keeps_post_group_join_request (i g : option uuid) (b : option bool) (u : uuid) :
  keeps_unique (post_group_join_request i g b u).
Proof. unfold post_group_join_request. keeps. Qed.

Lemma keeps_put_group_join_request (rid : uuid) (s : string) (u : uuid) :
  keeps_unique (put_group_join_request rid s u).
Proof. unfold put_group_join_request. keeps. Qed.

Lemma keeps_delete_group_join_request (rid u : uuid) :
  keeps_unique (delete_group_join_request rid u).
Proof. unfold delete_group_join_request. keeps. Qed.

Lemma gjr_unique_cancel (rid u : uuid) (d d' : db) :
  cancel_group_join_request rid u d = Some (tt, d') -> gjr_unique d -> gjr_unique d'.
Proof.
  unfold cancel_group_join_request.
  destruct (find _ (group_join_requests d)); [|discriminate].
  cbv zeta. destruct (sql_if_true _); [discriminate|].
  intros H. injection H as <-. apply gjr_unique_update_request_status.
Qed.

Lemma reachable_gjr_unique (d : db) : reachable d -> gjr_unique d.
Proof.
  induction 1 as [d Hd | | | | d d' rid u _ IH Hc | | | d d' _ IH Heq].
  - unfold gjr_unique. rewrite Hd. constructor.
  - apply route_keeps; [apply keeps_post_group_join_request | assumption].
  - apply route_keeps; [apply keeps_put_group_join_request | assumption].
  - apply route_keeps; [apply keeps_delete_group_join_request | assumption].
  - exact (gjr_unique_cancel _ _ _ _ Hc IH).
  - apply gjr_unique_delete_issue. assumption.
  - apply gjr_unique_delete_group. assumption.
  - unfold gjr_unique in *. rewrite Heq. exact IH.
Qed.

Lemma unique_keys_at_most_one (i g : uuid) (l : list group_join_request) :
  NoDup (map gjr_key l) -> (List.length (filter (gjr_for i g) l) <= 1)%nat.
Proof.
  induction l as [|a l IH]; simpl; intros H; [lia|].
  inversion H as [|? ? Ha Hl]; subst.
  destruct (gjr_for i g a) eqn:E; simpl; [|auto].
  apply gjr_for_key in E. rewrite E in Ha.
  destruct (filter (gjr_for i g) l) as [|r rest] eqn:F; simpl; [lia|].
  exfalso. apply Ha.
  assert (Hr : In r (filter (gjr_for i g) l)) by (rewrite F; left; reflexivity).
  apply filter_In in Hr as [Hr Hk]. apply gjr_for_key in Hk.
  rewrite <- Hk. apply in_map. exact Hr.
Qed.

End RoutesKeepUnique.

(** C10: in every reachable state the join-request table holds at most one
    row per (issue, group) pair, whatever its status: the keys
    [(issue_id, group_id)] are pairwise distinct, so a pair that has a
    row (pending, approved, accepted, declined or cancelled) never gets a
    second one while that row exists. *)
Theorem join_request_pair_unique (d : db) :
  reachable d ->
  NoDup (map gjr_key (group_join_requests d)) /\
  forall i g, (List.length (filter (gjr_for i g) (group_join_requests d)) <= 1)%nat.
Proof.
  intros H. pose proof (reachable_gjr_unique d H) as Hu.
  split; [exact Hu|]. intros i g. apply unique_keys_at_most_one. exact Hu.
Qed.

Lemma join_request_pair_unique_witness :
  reachable demo_cancelled /\
  (List.length (filter (gjr_for 20 30) (group_join_requests demo_cancelled)) <= 1)%nat.
Proof.
  assert (H : reachable demo_cancelled).
  { apply reach_delete. apply reach_post. apply reach_init. reflexivity. }
  split; [exact H|]. exact (proj2 (join_request_pair_unique demo_cancelled H) 20%nat 30%nat).
Defined.

(** ** Upvote procedures of the schema *)

(** [upvote_issue(p_issue_id, p_user_id)]: [INSERT INTO issue_upvotes
    (issue_id, user_id) VALUES (...) ON CONFLICT (issue_id, user_id) DO
    NOTHING].  The row-level BEFORE INSERT trigger runs on the proposed
    row before the arbiter index is consulted; when the pair already
    exists the row is skipped, while the trigger's own [UPDATE issues] has
    already been done.  The foreign keys are checked for an inserted row. *)
Definition upvote_issue (p_issue_id p_user_id : uuid) (d : db) : option (unit * db) :=
  match trg_issue_upvote_after_insert d (mkIssueUpvote p_issue_id p_user_id (Some 1)) with
  | None => None
  | Some (row, d1) =>
      if existsb (iu_matches p_issue_id p_user_id) (issue_upvotes d1) then Some (tt, d1)
      else if is_some (find_issue d1 p_issue_id) && is_some (find_user d1 p_user_id)
      then Some (tt, with_issue_upvotes d1 (issue_upvotes d1 ++ [row]))
      else None
  end.

(** [remove_post_upvote(p_issue_id, p_user_id)]: the [DELETE] alone; the
    trigger handles the counter. *)
Definition remove_post_upvote (p_issue_id p_user_id : uuid) (d : db) : option (unit * db) :=
  delete_issue_upvote p_issue_id p_user_id d.

(** [upvote_group(p_group_id, p_user_id)], as [upvote_issue]. *)
Definition upvote_group (p_group_id p_user_id : uuid) (d : db) : option (unit * db) :=
  match trg_group_upvote_after_insert d (mkGroupUpvote p_group_id p_user_id (Some 1)) with
  | None => None
  | Some (row, d1) =>
      if existsb (gu_matches p_group_id p_user_id) (group_upvotes d1) then Some (tt, d1)
      else if is_some (find_group d1 p_group_id) && is_some (find_user d1 p_user_id)
      then Some (tt, with_group_upvotes d1 (group_upvotes d1 ++ [row]))
      else None
  end.

(** [remove_group_upvote(p_group_id, p_user_id)]. *)
Definition remove_group_upvote (p_group_id p_user_id : uuid) (d : db) : option (unit * db) :=
  delete_group_upvote p_group_id p_user_id d.

(** [toggle_group_upvote(p_group_id, p_user_id)]. *)
Definition toggle_group_upvote (p_group_id p_user_id : uuid) : M (bool * Z) :=
  existing <- query (fun d => find (gu_matches p_group_id p_user_id) (group_upvotes d)) ;;
  match existing with
  | Some _ =>
      _ <- sql (delete_group_upvote p_group_id p_user_id) ;;
      final <- query (fun d => option_map group_upvote_count (find_group d p_group_id)) ;;
      ret (false, coalesce0 final)
  | None =>
      _ <- sql (insert_group_upvote p_group_id p_user_id) ;;
      final <- query (fun d => option_map group_upvote_count (find_group d p_group_id)) ;;
      ret (true, coalesce0 final)
  end.

(** The weight the insert triggers resolve for a voter. *)
Definition trigger_weight (d : db) (u : uuid) : Z :=
  match select_role_weight d u with Some w => w | None => 1 end.

Section UpvoteProcedures.

Lemma update_issue_roundtrip (l : list issue) (i : uuid) (w : Z) :
  (forall x, In x l -> issue_id x = i -> 0 <= issue_upvote_count x) ->
  map (fun x => if Nat.eqb (issue_id x) i
                then set_issue_upvote_count x (Z.max (issue_upvote_count x - w) 0) else x)
      (map (fun x => if Nat.eqb (issue_id x) i
                     then set_issue_upvote_count x (issue_upvote_count x + w) else x)
           l)
  = l.
Proof.
  intros Hpos.
  induction l as [|x l IH]; simpl; [reflexivity|].
  rewrite IH by (intros y Hy; apply Hpos; right; exact Hy).
  destruct (Nat.eqb (issue_id x) i) eqn:E; simpl; [|rewrite E; reflexivity].
  rewrite E. apply Nat.eqb_eq in E.
  specialize (Hpos x (or_introl eq_refl) E).
  destruct x; unfold set_issue_upvote_count; simpl in *.
  rewrite Z.add_simpl_r, Z.max_l by exact Hpos. reflexivity.
Qed.

Lemma update_group_roundtrip (l : list group) (g : uuid) (w : Z) :
  (forall x, In x l -> group_id x = g -> 0 <= group_upvote_count x) ->
  map (fun x => if Nat.eqb (group_id x) g
                then set_group_upvote_count x (Z.max (group_upvote_count x - w) 0) else x)
      (map (fun x => if Nat.eqb (group_id x) g
                     then set_group_upvote_count x (group_upvote_count x + w) else x)
           l)
  = l.
Proof.
  intros Hpos.
  induction l as [|x l IH]; simpl; [reflexivity|].
  rewrite IH by (intros y Hy; apply Hpos; right; exact Hy).
  destruct (Nat.eqb (group_id x) g) eqn:E; simpl; [|rewrite E; reflexivity].
  rewrite E. apply Nat.eqb_eq in E.
  specialize (Hpos x (or_introl eq_refl) E).
  destruct x; unfold set_issue_upvote_count; simpl in *.
  rewrite Z.add_simpl_r, Z.max_l by exact Hpos. reflexivity.
Qed.

Lemma filter_all_false {A} (p : A -> bool) (l : list A) :
  existsb p l = false -> filter p l = [] /\ filter (fun x => negb (p x)) l = l.
Proof.
  induction l as [|a l IH]; simpl; [auto|].
  intros H. apply Bool.orb_false_iff in H as [Ha Hl].
  rewrite Ha. simpl. destruct (IH Hl) as [-> ->]. auto.
Qed.

Lemma filter_snoc {A} (p : A -> bool) (l : list A) (x : A) :
  filter p (l ++ [x])%list = (filter p l ++ (if p x then [x] else []))%list.
Proof. rewrite filter_app. simpl. destruct (p x); reflexivity. Qed.

End UpvoteProcedures.

Section UpvoteProcedureFacts.

Lemma find_user_update_group (d : db) (g u : uuid) (f : group -> group) :
  find_user (update_group g f d) u = find_user d u.
Proof. reflexivity. Qed.

Lemma iu_update_issue (d : db) (i : uuid) (f : issue -> issue) :
  issue_upvotes (update_issue i f d) = issue_upvotes d.
Proof. reflexivity. Qed.

Lemma gu_update_group (d : db) (g : uuid) (f : group -> group) :
  group_upvotes (update_group g f d) = group_upvotes d.
Proof. reflexivity. Qed.

(** The insert triggers' range check passes when every row of the post
    has room for the weight. *)
Lemma trg_issue_insert_ok (d : db) (i u : uuid) :
  (forall z, In z (issues d) -> issue_id z = i ->
     in_int4 (issue_upvote_count z + trigger_weight d u) = true) ->
  trg_issue_upvote_after_insert d (mkIssueUpvote i u (Some 1))
  = Some (mkIssueUpvote i u (Some (trigger_weight d u)),
          update_issue i (fun x => set_issue_upvote_count x
                             (issue_upvote_count x + trigger_weight d u)) d).
Proof.
  intros Hr. unfold trg_issue_upvote_after_insert. cbn [iu_issue_id iu_user_id].
  fold (trigger_weight d u).
  rewrite (rows_in_int4_issues (issues d) i
             (fun x => issue_upvote_count x + trigger_weight d u) Hr).
  reflexivity.
Qed.

Lemma trg_group_insert_ok (d : db) (g u : uuid) :
  (forall z, In z (groups d) -> group_id z = g ->
     in_int4 (group_upvote_count z + trigger_weight d u) = true) ->
  trg_group_upvote_after_insert d (mkGroupUpvote g u (Some 1))
  = Some (mkGroupUpvote g u (Some (trigger_weight d u)),
          update_group g (fun x => set_group_upvote_count x
                             (group_upvote_count x + trigger_weight d u)) d).
Proof.
  intros Hr. unfold trg_group_upvote_after_insert. cbn [gu_group_id gu_user_id].
  fold (trigger_weight d u).
  rewrite (rows_in_int4_groups (groups d) g
             (fun x => group_upvote_count x + trigger_weight d u) Hr).
  reflexivity.
Qed.

Lemma upvote_issue_existing (d : db) (i u : uuid) (x : issue) :
  find_issue d i = Some x ->
  existsb (iu_matches i u) (issue_upvotes d) = true ->
  (forall z, In z (issues d) -> issue_id z = i ->
     in_int4 (issue_upvote_count z + trigger_weight d u) = true) ->
  exists d', upvote_issue i u d = Some (tt, d') /\
    issue_upvotes d' = issue_upvotes d /\
    issue_upvotes_of d' i = Some (issue_upvote_count x + trigger_weight d u).
Proof.
  intros Hx He Hr. unfold upvote_issue. rewrite (trg_issue_insert_ok d i u Hr).
  rewrite iu_update_issue, He.
  eexists. split; [reflexivity|]. split; [reflexivity|].
  unfold issue_upvotes_of. rewrite find_update_issue by reflexivity.
  rewrite Hx. reflexivity.
Qed.

Lemma upvote_group_existing (d : db) (g u : uuid) (y : group) :
  find_group d g = Some y ->
  existsb (gu_matches g u) (group_upvotes d) = true ->
  (forall z, In z (groups d) -> group_id z = g ->
     in_int4 (group_upvote_count z + trigger_weight d u) = true) ->
  exists d', upvote_group g u d = Some (tt, d') /\
    group_upvotes d' = group_upvotes d /\
    group_upvotes_of d' g = Some (group_upvote_count y + trigger_weight d u).
Proof.
  intros Hy He Hr. unfold upvote_group. rewrite (trg_group_insert_ok d g u Hr).
  rewrite gu_update_group, He.
  eexists. split; [reflexivity|]. split; [reflexivity|].
  unfold group_upvotes_of. rewrite find_update_group by reflexivity.
  rewrite Hy. reflexivity.
Qed.

Lemma upvote_issue_fresh (d : db) (i u : uuid) :
  existsb (iu_matches i u) (issue_upvotes d) = false ->
  is_some (find_issue d i) = true -> is_some (find_user d u) = true ->
  (forall z, In z (issues d) -> issue_id z = i ->
     in_int4 (issue_upvote_count z + trigger_weight d u) = true) ->
  upvote_issue i u d
  = Some (tt, with_issue_upvotes
                (update_issue i (fun x => set_issue_upvote_count x
                                  (issue_upvote_count x + trigger_weight d u)) d)
                (issue_upvotes d ++ [mkIssueUpvote i u (Some (trigger_weight d u))])).
Proof.
  intros He Hi Hu Hr. unfold upvote_issue. rewrite (trg_issue_insert_ok d i u Hr).
  rewrite iu_update_issue, He.
  rewrite find_user_update_issue, find_update_issue by reflexivity.
  destruct (find_issue d i); [|discriminate]. simpl. rewrite Hu. reflexivity.
Qed.

Lemma upvote_group_fresh (d : db) (g u : uuid) :
  existsb (gu_matches g u) (group_upvotes d) = false ->
  is_some (find_group d g) = true -> is_some (find_user d u) = true ->
  (forall z, In z (groups d) -> group_id z = g ->
     in_int4 (group_upvote_count z + trigger_weight d u) = true) ->
  upvote_group g u d
  = Some (tt, with_group_upvotes
                (update_group g (fun x => set_group_upvote_count x
                                  (group_upvote_count x + trigger_weight d u)) d)
                (group_upvotes d ++ [mkGroupUpvote g u (Some (trigger_weight d u))])).
Proof.
  intros He Hg Hu Hr. unfold upvote_group. rewrite (trg_group_insert_ok d g u Hr).
  rewrite gu_update_group, He.
  rewrite find_update_group by reflexivity.
  destruct (find_group d g); [|discriminate]. simpl.
  rewrite find_user_update_group, Hu. reflexivity.
Qed.

Lemma remove_after_fresh_issue_upvote (d : db) (i u : uuid) :
  existsb (iu_matches i u) (issue_upvotes d) = false ->
  (forall x, In x (issues d) -> issue_id x = i ->
     0 <= issue_upvote_count x <= int4_max) ->
  remove_post_upvote i u
    (with_issue_upvotes
       (update_issue i (fun x => set_issue_upvote_count x
                          (issue_upvote_count x + trigger_weight d u)) d)
       (issue_upvotes d ++ [mkIssueUpvote i u (Some (trigger_weight d u))]))
  = Some (tt, d).
Proof.
  intros He Hpos. unfold remove_post_upvote, delete_issue_upvote.
  cbn [issue_upvotes with_issue_upvotes].
  rewrite !filter_snoc. destruct (filter_all_false _ _ He) as [H1 H2].
  rewrite H1, H2. unfold iu_matches. cbn [iu_issue_id iu_user_id].
  rewrite !Nat.eqb_refl. cbn [andb negb app fold_triggers].
  unfold trg_issue_upvote_after_delete. cbn [iu_upvote_weight iu_issue_id].
  rewrite issues_with_issue_upvotes, issues_with_issue_upvotes, rows_in_int4_update_issue.
  - cbn [fold_triggers].
    destruct d; unfold update_issue, with_issue_upvotes, with_issues in *; simpl in *.
    rewrite update_issue_roundtrip by (intros y Hy Hs; exact (proj1 (Hpos y Hy Hs))).
    rewrite app_nil_r. reflexivity.
  - intros y Hy Hs. cbn [issue_upvote_count set_issue_upvote_count].
    specialize (Hpos y Hy Hs). apply in_int4_iff.
    unfold int4_min, int4_max in *. lia.
Qed.

Lemma remove_after_fresh_group_upvote (d : db) (g u : uuid) :
  existsb (gu_matches g u) (group_upvotes d) = false ->
  (forall x, In x (groups d) -> group_id x = g ->
     0 <= group_upvote_count x <= int4_max) ->
  remove_group_upvote g u
    (with_group_upvotes
       (update_group g (fun x => set_group_upvote_count x
                          (group_upvote_count x + trigger_weight d u)) d)
       (group_upvotes d ++ [mkGroupUpvote g u (Some (trigger_weight d u))]))
  = Some (tt, d).
Proof.
  intros He Hpos. unfold remove_group_upvote, delete_group_upvote.
  cbn [group_upvotes with_group_upvotes].
  rewrite !filter_snoc. destruct (filter_all_false _ _ He) as [H1 H2].
  rewrite H1, H2. unfold gu_matches. cbn [gu_group_id gu_user_id].
  rewrite !Nat.eqb_refl. cbn [andb negb app fold_triggers].
  unfold trg_group_upvote_after_delete. cbn [gu_upvote_weight gu_group_id].
  rewrite groups_with_group_upvotes, groups_with_group_upvotes, rows_in_int4_update_group.
  - cbn [fold_triggers].
    destruct d; unfold update_group, with_group_upvotes, with_groups in *; simpl in *.
    rewrite update_group_roundtrip by (intros y Hy Hs; exact (proj1 (Hpos y Hy Hs))).
    rewrite app_nil_r. reflexivity.
  - intros y Hy Hs. cbn [group_upvote_count set_group_upvote_count].
    specialize (Hpos y Hy Hs). apply in_int4_iff.
    unfold int4_min, int4_max in *. lia.
Qed.

Lemma insert_issue_upvote_fresh (d : db) (i u : uuid) :
  existsb (iu_matches i u) (issue_upvotes d) = false ->
  insert_issue_upvote i u d = upvote_issue i u d.
Proof.
  intros He. unfold insert_issue_upvote, upvote_issue.
  destruct (trg_issue_upvote_after_insert d (mkIssueUpvote i u (Some 1)))
    as [[row d1]|] eqn:E; [|reflexivity].
  unfold trg_issue_upvote_after_insert in E.
  match type of E with context [rows_in_int4 ?a ?b ?c] =>
    destruct (rows_in_int4 a b c); [injection E as <- <-|discriminate E] end.
  rewrite iu_update_issue, He. simpl negb. rewrite Bool.andb_true_r. reflexivity.
Qed.

Lemma insert_group_upvote_fresh (d : db) (g u : uuid) :
  existsb (gu_matches g u) (group_upvotes d) = false ->
  insert_group_upvote g u d = upvote_group g u d.
Proof.
  intros He. unfold insert_group_upvote, upvote_group.
  destruct (trg_group_upvote_after_insert d (mkGroupUpvote g u (Some 1)))
    as [[row d1]|] eqn:E; [|reflexivity].
  unfold trg_group_upvote_after_insert in E.
  match type of E with context [rows_in_int4 ?a ?b ?c] =>
    destruct (rows_in_int4 a b c); [injection E as <- <-|discriminate E] end.
  rewrite gu_update_group, He. simpl negb. rewrite Bool.andb_true_r. reflexivity.
Qed.

Lemma remove_absent_issue_upvote (d : db) (i u : uuid) :
  existsb (iu_matches i u) (issue_upvotes d) = false ->
  remove_post_upvote i u d = Some (tt, d).
Proof.
  intros He. unfold remove_post_upvote, delete_issue_upvote.
  destruct (filter_all_false _ _ He) as [H1 H2]. rewrite H1, H2.
  cbn [fold_triggers]. destruct d; reflexivity.
Qed.

Lemma remove_absent_group_upvote (d : db) (g u : uuid) :
  existsb (gu_matches g u) (group_upvotes d) = false ->
  remove_group_upvote g u d = Some (tt, d).
Proof.
  intros He. unfold remove_group_upvote, delete_group_upvote.
  destruct (filter_all_false _ _ He) as [H1 H2]. rewrite H1, H2.
  cbn [fold_triggers]. destruct d; reflexivity.
Qed.

End UpvoteProcedureFacts.

Section ToggleFunctions.

Lemma find_existsb_false {A} (p : A -> bool) (l : list A) :
  existsb p l = false -> find p l = None.
Proof.
  induction l as [|a l IH]; simpl; [reflexivity|].
  intros H. apply Bool.orb_false_iff in H as [-> Hl]. exact (IH Hl).
Qed.

Lemma find_snoc_new {A} (p : A -> bool) (l : list A) (x : A) :
  existsb p l = false -> p x = true -> find p (l ++ [x])%list = Some x.
Proof.
  induction l as [|a l IH]; simpl; [intros _ ->; reflexivity|].
  intros H Hx. apply Bool.orb_false_iff in H as [-> Hl]. exact (IH Hl Hx).
Qed.

Lemma toggle_issue_upvote_fresh (d : db) (i u : uuid) (x : issue) :
  existsb (iu_matches i u) (issue_upvotes d) = false ->
  find_issue d i = Some x -> is_some (find_user d u) = true ->
  (forall z, In z (issues d) -> issue_id z = i ->
     in_int4 (issue_upvote_count z + trigger_weight d u) = true) ->
  toggle_issue_upvote i u d
  = (Ret (true, issue_upvote_count x + trigger_weight d u),
     with_issue_upvotes
       (update_issue i (fun x => set_issue_upvote_count x
                          (issue_upvote_count x + trigger_weight d u)) d)
       (issue_upvotes d ++ [mkIssueUpvote i u (Some (trigger_weight d u))])).
Proof.
  intros He Hx Hu Hr. unfold toggle_issue_upvote, bind, query, sql, ret, select_issue_upvote.
  rewrite (find_existsb_false _ _ He).
  rewrite insert_issue_upvote_fresh by exact He.
  rewrite upvote_issue_fresh by (try rewrite Hx; auto).
  rewrite find_issue_with_issue_upvotes, find_update_issue by reflexivity.
  rewrite Hx. reflexivity.
Qed.

Lemma toggle_issue_upvote_again (d : db) (i u : uuid) (x : issue) :
  existsb (iu_matches i u) (issue_upvotes d) = false ->
  find_issue d i = Some x ->
  (forall y, In y (issues d) -> issue_id y = i ->
     0 <= issue_upvote_count y <= int4_max) ->
  toggle_issue_upvote i u
    (with_issue_upvotes
       (update_issue i (fun x => set_issue_upvote_count x
                          (issue_upvote_count x + trigger_weight d u)) d)
       (issue_upvotes d ++ [mkIssueUpvote i u (Some (trigger_weight d u))]))
  = (Ret (false, issue_upvote_count x), d).
Proof.
  intros He Hx Hpos. unfold toggle_issue_upvote, bind, query, sql, ret, select_issue_upvote.
  cbn [issue_upvotes with_issue_upvotes].
  rewrite find_snoc_new by (try exact He; unfold iu_matches; simpl; rewrite !Nat.eqb_refl; reflexivity).
  change (delete_issue_upvote i u) with (remove_post_upvote i u).
  rewrite remove_after_fresh_issue_upvote by assumption.
  rewrite Hx. reflexivity.
Qed.

Lemma toggle_group_upvote_fresh (d : db) (g u : uuid) (y : group) :
  existsb (gu_matches g u) (group_upvotes d) = false ->
  find_group d g = Some y -> is_some (find_user d u) = true ->
  (forall z, In z (groups d) -> group_id z = g ->
     in_int4 (group_upvote_count z + trigger_weight d u) = true) ->
  toggle_group_upvote g u d
  = (Ret (true, group_upvote_count y + trigger_weight d u),
     with_group_upvotes
       (update_group g (fun x => set_group_upvote_count x
                          (group_upvote_count x + trigger_weight d u)) d)
       (group_upvotes d ++ [mkGroupUpvote g u (Some (trigger_weight d u))])).
Proof.
  intros He Hy Hu Hr. unfold toggle_group_upvote, bind, query, sql, ret.
  rewrite (find_existsb_false _ _ He).
  rewrite insert_group_upvote_fresh by exact He.
  rewrite upvote_group_fresh by (try rewrite Hy; auto).
  change (find_group (with_group_upvotes ?d' ?l) g) with (find_group d' g).
  rewrite find_update_group by reflexivity.
  rewrite Hy. reflexivity.
Qed.

Lemma toggle_group_upvote_again (d : db) (g u : uuid) (y : group) :
  existsb (gu_matches g u) (group_upvotes d) = false ->
  find_group d g = Some y ->
  (forall x, In x (groups d) -> group_id x = g ->
     0 <= group_upvote_count x <= int4_max) ->
  toggle_group_upvote g u
    (with_group_upvotes
       (update_group g (fun x => set_group_upvote_count x
                          (group_upvote_count x + trigger_weight d u)) d)
       (group_upvotes d ++ [mkGroupUpvote g u (Some (trigger_weight d u))]))
  = (Ret (false, group_upvote_count y), d).
Proof.
  intros He Hy Hpos. unfold toggle_group_upvote, bind, query, sql, ret.
  cbn [group_upvotes with_group_upvotes].
  rewrite find_snoc_new by (try exact He; unfold gu_matches; simpl; rewrite !Nat.eqb_refl; reflexivity).
  change (delete_group_upvote g u) with (remove_group_upvote g u).
  rewrite remove_after_fresh_group_upvote by assumption.
  rewrite Hy. reflexivity.
Qed.

End ToggleFunctions.

(** A hypothesis over the rows of a concrete table with a given id,
    checked row by row. *)
Ltac concrete_rows :=
  let z := fresh "z" in
  let Hin := fresh "Hin" in
  let Hs := fresh "Hs" in
  intros z Hin Hs; simpl in Hin;
  repeat match type of Hin with _ \/ _ => destruct Hin as [Hin|Hin] end;
  try (exfalso; exact Hin);
  subst z; simpl in Hs; try discriminate Hs.

Definition demo_both_voted : db :=
  snd (post_group_upvote 30 10 (snd (route (post_issue_upvote 20 10) demo_db))).

(** Extra: calling upvote_issue or upvote_group for a vote that already
    exists inserts no second vote row, but the BEFORE INSERT trigger has
    already run, so the post's upvote_count grows by the voter's weight
    again, provided the sum fits in [int4]. *)
Theorem upvote_procedures_existing_vote (d : db) (i g u : uuid) (x : issue) (y : group) :
  find_issue d i = Some x ->
  existsb (iu_matches i u) (issue_upvotes d) = true ->
  find_group d g = Some y ->
  existsb (gu_matches g u) (group_upvotes d) = true ->
  (forall z, In z (issues d) -> issue_id z = i ->
     in_int4 (issue_upvote_count z + trigger_weight d u) = true) ->
  (forall z, In z (groups d) -> group_id z = g ->
     in_int4 (group_upvote_count z + trigger_weight d u) = true) ->
  (exists d', upvote_issue i u d = Some (tt, d') /\
     issue_upvotes d' = issue_upvotes d /\
     issue_upvotes_of d' i = Some (issue_upvote_count x + trigger_weight d u)) /\
  (exists d', upvote_group g u d = Some (tt, d') /\
     group_upvotes d' = group_upvotes d /\
     group_upvotes_of d' g = Some (group_upvote_count y + trigger_weight d u)).
Proof.
  intros Hx Hxe Hy Hye Hri Hrg. split.
  - exact (upvote_issue_existing d i u x Hx Hxe Hri).
  - exact (upvote_group_existing d g u y Hy Hye Hrg).
Qed.

Lemma upvote_procedures_existing_vote_witness :
  let d := demo_both_voted in
  trigger_weight d 10 = 2 /\
  (exists d', upvote_issue 20 10 d = Some (tt, d') /\
     issue_upvotes d' = issue_upvotes d /\ issue_upvotes_of d' 20 = Some 6) /\
  (exists d', upvote_group 30 10 d = Some (tt, d') /\
     group_upvotes d' = group_upvotes d /\ group_upvotes_of d' 30 = Some 5).
Proof.
  intros d. split; [vm_compute; reflexivity|].
  exact (upvote_procedures_existing_vote d 20 30 10
           (mkIssue 20 10 None 4 (Some 0)) (mkGroup 30 11 3 0 (Some 0))
           ltac:(vm_compute; reflexivity) ltac:(vm_compute; reflexivity)
           ltac:(vm_compute; reflexivity) ltac:(vm_compute; reflexivity)
           ltac:(intros z Hz _; vm_compute in Hz;
                 repeat (destruct Hz as [<-|Hz]; [vm_compute; reflexivity|]);
                 contradiction)
           ltac:(intros z Hz _; vm_compute in Hz;
                 repeat (destruct Hz as [<-|Hz]; [vm_compute; reflexivity|]);
                 contradiction)).
Defined.

(** Extra: from a state with no vote of [u] on issue [i] (group [g]),
    counters in [0, 2147483647] and room in [int4] for the voter's
    weight, the procedure upvote_issue (upvote_group) followed by
    remove_post_upvote (remove_group_upvote) gives back exactly the state
    it started from. *)
Theorem upvote_then_remove_restores (d : db) (i g u : uuid) :
  is_some (find_issue d i) = true -> is_some (find_group d g) = true ->
  is_some (find_user d u) = true ->
  existsb (iu_matches i u) (issue_upvotes d) = false ->
  existsb (gu_matches g u) (group_upvotes d) = false ->
  (forall x, In x (issues d) -> issue_id x = i ->
     0 <= issue_upvote_count x <= int4_max /\
     in_int4 (issue_upvote_count x + trigger_weight d u) = true) ->
  (forall y, In y (groups d) -> group_id y = g ->
     0 <= group_upvote_count y <= int4_max /\
     in_int4 (group_upvote_count y + trigger_weight d u) = true) ->
  (exists d1, upvote_issue i u d = Some (tt, d1) /\ remove_post_upvote i u d1 = Some (tt, d)) /\
  (exists d1, upvote_group g u d = Some (tt, d1) /\ remove_group_upvote g u d1 = Some (tt, d)).
Proof.
  intros Hi Hg Hu Hie Hge Hip Hgp. split; eexists; split.
  - apply upvote_issue_fresh; try assumption.
    intros z Hz Hs; exact (proj2 (Hip z Hz Hs)).
  - apply remove_after_fresh_issue_upvote; try assumption.
    intros z Hz Hs; exact (proj1 (Hip z Hz Hs)).
  - apply upvote_group_fresh; try assumption.
    intros z Hz Hs; exact (proj2 (Hgp z Hz Hs)).
  - apply remove_after_fresh_group_upvote; try assumption.
    intros z Hz Hs; exact (proj1 (Hgp z Hz Hs)).
Qed.

Lemma upvote_then_remove_restores_witness :
  (exists d1, upvote_issue 20 10 demo_db = Some (tt, d1) /\
     remove_post_upvote 20 10 d1 = Some (tt, demo_db)) /\
  (exists d1, upvote_group 31 10 demo_db = Some (tt, d1) /\
     remove_group_upvote 31 10 d1 = Some (tt, demo_db)).
Proof.
  refine (upvote_then_remove_restores demo_db 20 31 10 _ _ _ _ _ _ _);
    try (match goal with |- @eq _ _ _ => vm_compute; reflexivity end);
    concrete_rows; (split; [unfold int4_max; simpl; lia | vm_compute; reflexivity]).
Defined.

(** Extra: called twice from a state with no vote of [u], counters in
    [0, 2147483647] and room in [int4] for the voter's weight, the stored
    functions toggle_issue_upvote and toggle_group_upvote first add a vote
    and return (true, count + weight), then remove it and return
    (false, count), leaving the database exactly as it was. *)
Theorem toggle_upvote_twice_restores (d : db) (i g u : uuid) (x : issue) (y : group) :
  find_issue d i = Some x -> find_group d g = Some y ->
  is_some (find_user d u) = true ->
  existsb (iu_matches i u) (issue_upvotes d) = false ->
  existsb (gu_matches g u) (group_upvotes d) = false ->
  (forall z, In z (issues d) -> issue_id z = i ->
     0 <= issue_upvote_count z <= int4_max /\
     in_int4 (issue_upvote_count z + trigger_weight d u) = true) ->
  (forall z, In z (groups d) -> group_id z = g ->
     0 <= group_upvote_count z <= int4_max /\
     in_int4 (group_upvote_count z + trigger_weight d u) = true) ->
  (exists d1,
     toggle_issue_upvote i u d = (Ret (true, issue_upvote_count x + trigger_weight d u), d1) /\
     toggle_issue_upvote i u d1 = (Ret (false, issue_upvote_count x), d)) /\
  (exists d1,
     toggle_group_upvote g u d = (Ret (true, group_upvote_count y + trigger_weight d u), d1) /\
     toggle_group_upvote g u d1 = (Ret (false, group_upvote_count y), d)).
Proof.
  intros Hx Hy Hu Hie Hge Hip Hgp. split; eexists; split.
  - apply toggle_issue_upvote_fresh; try assumption.
    intros z Hz Hs; exact (proj2 (Hip z Hz Hs)).
  - apply toggle_issue_upvote_again; try assumption.
    intros z Hz Hs; exact (proj1 (Hip z Hz Hs)).
  - apply toggle_group_upvote_fresh; try assumption.
    intros z Hz Hs; exact (proj2 (Hgp z Hz Hs)).
  - apply toggle_group_upvote_again; try assumption.
    intros z Hz Hs; exact (proj1 (Hgp z Hz Hs)).
Qed.

Lemma toggle_upvote_twice_restores_witness :
  (exists d1, toggle_issue_upvote 20 10 demo_db = (Ret (true, 2), d1) /\
     toggle_issue_upvote 20 10 d1 = (Ret (false, 0), demo_db)) /\
  (exists d1, toggle_group_upvote 31 10 demo_db = (Ret (true, 2), d1) /\
     toggle_group_upvote 31 10 d1 = (Ret (false, 0), demo_db)).
Proof.
  refine (toggle_upvote_twice_restores demo_db 20 31 10
           (mkIssue 20 10 None 0 (Some 0)) (mkGroup 31 10 0 0 (Some 0)) _ _ _ _ _ _ _);
    try (match goal with |- @eq _ _ _ => vm_compute; reflexivity end);
    concrete_rows; (split; [unfold int4_max; simpl; lia | vm_compute; reflexivity]).
Defined.

(** Extra: remove_post_upvote and remove_group_upvote on a pair that has
    no vote change nothing: the DELETE matches no row, so neither the
    vote table nor any counter (the AFTER DELETE trigger fires per
    deleted row) is touched. *)
Theorem remove_absent_vote_noop (d : db) (i g u : uuid) :
  existsb (iu_matches i u) (issue_upvotes d) = false ->
  existsb (gu_matches g u) (group_upvotes d) = false ->
  remove_post_upvote i u d = Some (tt, d) /\ remove_group_upvote g u d = Some (tt, d).
Proof.
  intros Hi Hg. split.
  - exact (remove_absent_issue_upvote d i u Hi).
  - exact (remove_absent_group_upvote d g u Hg).
Qed.

Lemma remove_absent_vote_noop_witness :
  remove_post_upvote 20 11 demo_voted_then_promoted = Some (tt, demo_voted_then_promoted) /\
  remove_group_upvote 30 11 demo_voted_then_promoted = Some (tt, demo_voted_then_promoted).
Proof.
  apply remove_absent_vote_noop; vm_compute; reflexivity.
Defined.

(** ** Processing role change requests *)

(** [v_pending_role_requests]: the requests joined with their user, the
    requested role and the user's current role, kept when pending.  Its
    [ORDER BY submitted_at] plays no part here: the procedure selects by
    [req_id], the primary key. *)
Definition v_pending_role_requests (d : db) : list role_change_request :=
  filter (fun q => match find_user d (rcr_user_id q) with
                   | Some u => is_some (find_role d (rcr_requested_role_id q))
                               && is_some (find_role d (user_role_id u))
                   | None => false
                   end && rcr_pending q)
         (role_change_requests d).

(** [process_role_change_request(p_req_id, p_status)]: [RAISE] when the
    view has no such request (the call fails as a whole); otherwise the
    request's status is set ([reviewed_at], not modelled, too) and an
    approval moves the user to the requested role. *)
Definition process_role_change_request (p_req_id : uuid) (p_status : string) (d : db)
  : option (unit * db) :=
  match find (fun q => Nat.eqb (rcr_req_id q) p_req_id) (v_pending_role_requests d) with
  | None => None
  | Some q =>
      let d1 := with_role_change_requests d
                  (map (fun x => if Nat.eqb (rcr_req_id x) p_req_id
                                 then mkRCR (rcr_req_id x) (rcr_user_id x)
                                            (rcr_requested_role_id x) p_status
                                 else x) (role_change_requests d)) in
      Some (tt, if String.eqb p_status "approved"
                then update_user_role d1 (rcr_user_id q) (rcr_requested_role_id q)
                else d1)
  end.

(** [SELECT f($1, $2)] where [f] is a PROCEDURE: PostgreSQL rejects the
    statement ("... is a procedure", use CALL) before running anything. *)
Definition select_procedure {A} (proc : db -> option (A * db)) (d : db)
  : option (A * db) :=
  None.

(** [PUT /admin/role-requests/:id], for a caller that passed
    [authenticateToken] and [requireAdmin]. *)
Definition put_admin_role_request (requestId : uuid) (status : string) : M response :=
  if negb (existsb (String.eqb status) ["approved"; "rejected"])
  then ret (400, PError "Status must be 'approved' or 'rejected'")
  else
  _ <- sql (select_procedure (process_role_change_request requestId status)) ;;
  ret (200, PMessage ("Request " ++ status)).

Section RoleRequestProcessing.

Lemma find_some_true {A} (p : A -> bool) (l : list A) (x : A) :
  find p l = Some x -> p x = true.
Proof.
  induction l as [|a l IH]; simpl; [discriminate|].
  destruct (p a) eqn:Ha; [intros H; injection H as <-; exact Ha|exact IH].
Qed.

Lemma find_filter_single {A} (p c : A -> bool) (l : list A) (q : A) :
  filter p l = [q] -> c q = true -> find p (filter c l) = Some q.
Proof.
  induction l as [|a l IH]; simpl; [discriminate|].
  destruct (p a) eqn:Hp.
  - intros H Hc. injection H as <- Hl. rewrite Hc. simpl. rewrite Hp. reflexivity.
  - intros H Hc. destruct (c a); simpl; [rewrite Hp|]; exact (IH H Hc).
Qed.

Lemma find_filter_single_out {A} (p c : A -> bool) (l : list A) (q : A) :
  filter p l = [q] -> c q = false -> find p (filter c l) = None.
Proof.
  induction l as [|a l IH]; simpl; [discriminate|].
  destruct (p a) eqn:Hp.
  - intros H Hc. injection H as <- Hl. rewrite Hc.
    apply find_filter_nil. clear IH. induction l as [|b l IHl]; simpl in *; [reflexivity|].
    destruct (p b) eqn:Hb; [discriminate|]. destruct (c b); simpl; [rewrite Hb|]; exact (IHl Hl).
  - intros H Hc. destruct (c a); simpl; [rewrite Hp|]; exact (IH H Hc).
Qed.

Lemma filter_map_same {A} (p : A -> bool) (f : A -> A) (l : list A) :
  (forall x, p (f x) = p x) ->
  filter p (map (fun x => if p x then f x else x) l) = map f (filter p l).
Proof.
  intros Hf. induction l as [|a l IH]; simpl; [reflexivity|].
  destruct (p a) eqn:Ha; simpl.
  - rewrite Hf, Ha, IH. reflexivity.
  - rewrite Ha. exact IH.
Qed.

End RoleRequestProcessing.

(** Extra: [process_role_change_request] on a pending request (its user,
    the user's current role and the requested role existing) with a final
    status [s]: the request row takes status [s], the user moves to the
    requested role exactly when [s] is ['approved'], and processing the
    same request again, with any status, raises. *)
Theorem process_role_change_request_once (d : db) (p : uuid) (s : string)
    (q : role_change_request) (usr : user) :
  filter (fun x => Nat.eqb (rcr_req_id x) p) (role_change_requests d) = [q] ->
  rcr_pending q = true ->
  find_user d (rcr_user_id q) = Some usr ->
  is_some (find_role d (rcr_requested_role_id q)) = true ->
  is_some (find_role d (user_role_id usr)) = true ->
  s <> "pending" ->
  exists d1, process_role_change_request p s d = Some (tt, d1) /\
    filter (fun x => Nat.eqb (rcr_req_id x) p) (role_change_requests d1)
    = [mkRCR p (rcr_user_id q) (rcr_requested_role_id q) s] /\
    find_user d1 (rcr_user_id q)
    = Some (if String.eqb s "approved"
            then mkUser (rcr_user_id q) (rcr_requested_role_id q) else usr) /\
    (forall s', process_role_change_request p s' d1 = None).
Proof.
  intros Hq Hpend Hu Hr Hc Hs.
  assert (Hp : Nat.eqb (rcr_req_id q) p = true)
    by exact (find_some_true (fun x => Nat.eqb (rcr_req_id x) p) _ _
                (find_filter_cons _ _ _ [] Hq)).
  apply Nat.eqb_eq in Hp.
  unfold process_role_change_request, v_pending_role_requests.
  rewrite (find_filter_single _ _ _ q Hq) by (rewrite Hu, Hr, Hc, Hpend; reflexivity).
  eexists. split; [reflexivity|].
  set (upd := fun x : role_change_request =>
                mkRCR (rcr_req_id x) (rcr_user_id x) (rcr_requested_role_id x) s).
  assert (Hf : filter (fun x => Nat.eqb (rcr_req_id x) p)
                 (map (fun x => if Nat.eqb (rcr_req_id x) p then upd x else x)
                      (role_change_requests d))
               = [mkRCR p (rcr_user_id q) (rcr_requested_role_id q) s]).
  { rewrite filter_map_same by reflexivity. rewrite Hq. unfold upd. simpl. rewrite Hp. reflexivity. }
  assert (Hout : rcr_pending (mkRCR p (rcr_user_id q) (rcr_requested_role_id q) s) = false)
    by (apply String.eqb_neq; exact Hs).
  assert (Hagain : forall d2 : db,
            role_change_requests d2
            = map (fun x => if Nat.eqb (rcr_req_id x) p then upd x else x)
                  (role_change_requests d) ->
            forall s', process_role_change_request p s' d2 = None).
  { intros d2 E s'. unfold process_role_change_request, v_pending_role_requests.
    rewrite E, (find_filter_single_out _ _ _ _ Hf); [reflexivity|].
    simpl. rewrite Hout, Bool.andb_false_r. reflexivity. }
  destruct (String.eqb s "approved") eqn:Ha; (split; [exact Hf|split]).
  - unfold find_user, update_user_role; simpl.
    rewrite (find_map_update (fun x => Nat.eqb (user_id x) (rcr_user_id q))
               (fun x => mkUser (user_id x) (rcr_requested_role_id q))) by reflexivity.
    unfold find_user in Hu. rewrite Hu. simpl.
    apply find_some_true, Nat.eqb_eq in Hu. rewrite Hu. reflexivity.
  - apply Hagain. reflexivity.
  - exact Hu.
  - apply Hagain. reflexivity.
Qed.

Lemma process_role_change_request_once_witness :
  let d := with_role_change_requests demo_db [mkRCR 40 10 2 "pending"] in
  exists d1, process_role_change_request 40 "approved" d = Some (tt, d1) /\
    filter (fun x => Nat.eqb (rcr_req_id x) 40) (role_change_requests d1)
    = [mkRCR 40 10 2 "approved"] /\
    find_user d1 10 = Some (mkUser 10 2) /\
    (forall s', process_role_change_request 40 s' d1 = None).
Proof.
  intros d.
  exact (process_role_change_request_once d 40 "approved" (mkRCR 40 10 2 "pending")
           (mkUser 10 1) eq_refl eq_refl eq_refl eq_refl eq_refl
           ltac:(discriminate)).
Defined.

(** Extra: [PUT /admin/role-requests/:id] never changes the database and
    never succeeds: a status other than ['approved'] or ['rejected'] gets
    400, and the other two reach [SELECT process_role_change_request(...)],
    which PostgreSQL refuses for a procedure, so the route answers 500. *)
Theorem put_admin_role_request_never_applies (rid : uuid) (status : string) (d : db) :
  route (put_admin_role_request rid status) d
  = (if String.eqb status "approved" || String.eqb status "rejected"
     then (500, PError "Internal server error")
     else (400, PError "Status must be 'approved' or 'rejected'"), d).
Proof.
  unfold route, put_admin_role_request. cbn [existsb].
  destruct (String.eqb status "approved"), (String.eqb status "rejected"); reflexivity.
Qed.

(** ** Listing join requests *)

(** A row of the listing: the request with [i.user_id AS issue_owner_id]
    and [g.owner_id AS group_owner_id] (titles, names and descriptions
    are not modelled). *)
Definition request_row : Type := (group_join_request * uuid * uuid)%type.

(** [FROM group_join_request gjr JOIN issues i ON gjr.issue_id = i.issue_id
     JOIN users iu ON i.user_id = iu.user_id JOIN groups g ON gjr.group_id
     = g.group_id JOIN users gu ON g.owner_id = gu.user_id]; the joins go
    by primary keys, so each request yields at most one row. *)
Definition gjr_listing_rows (d : db) : list request_row :=
  flat_map (fun r =>
    match find_issue d (gjr_issue_id r), find_group d (gjr_group_id r) with
    | Some ix, Some gx =>
        if is_some (find_user d (issue_user_id ix))
           && is_some (find_user d (group_owner_id gx))
        then [(r, issue_user_id ix, group_owner_id gx)]
        else []
    | _, _ => []
    end) (group_join_requests d).

(** The three [WHERE] clauses, [$1] being [userId]. *)
Definition incoming_where (userId : uuid) (x : request_row) : bool :=
  let '(r, issue_owner_id, group_owner_id) := x in
  (gjr_requested_by_group r && Nat.eqb issue_owner_id userId)
  || (negb (gjr_requested_by_group r) && Nat.eqb group_owner_id userId).

Definition outgoing_where (userId : uuid) (x : request_row) : bool :=
  let '(r, issue_owner_id, group_owner_id) := x in
  (gjr_requested_by_group r && Nat.eqb group_owner_id userId)
  || (negb (gjr_requested_by_group r) && Nat.eqb issue_owner_id userId).

Definition all_where (userId : uuid) (x : request_row) : bool :=
  let '(_, issue_owner_id, group_owner_id) := x in
  Nat.eqb issue_owner_id userId || Nat.eqb group_owner_id userId.

(** [ORDER BY gjr.requested_at DESC], by insertion; PostgreSQL leaves the
    order of ties open, this model puts the later inserted row first. *)
Fixpoint insert_requested_at_desc (x : request_row) (l : list request_row)
  : list request_row :=
  match l with
  | [] => [x]
  | y :: l' =>
      let '(ry, _, _) := y in
      let '(rx, _, _) := x in
      if Nat.leb (gjr_requested_at ry) (gjr_requested_at rx) then x :: l
      else y :: insert_requested_at_desc x l'
  end.

Definition order_by_requested_at_desc (l : list request_row) : list request_row :=
  fold_right insert_requested_at_desc [] l.

(** [GET /group-join-requests?direction=...]: ['incoming'], ['outgoing'],
    anything else (or nothing) lists all; answers [{ requests: rows }]. *)
Definition get_group_join_requests (direction : option string) (userId : uuid)
  : M (Z * list request_row) :=
  let where_ := match direction with
                | Some s => if String.eqb s "incoming" then incoming_where userId
                            else if String.eqb s "outgoing" then outgoing_where userId
                            else all_where userId
                | None => all_where userId
                end in
  rows <- query (fun d => order_by_requested_at_desc (filter where_ (gjr_listing_rows d))) ;;
  ret (200, rows).

(** The rows a listing answers with. *)
Definition listed (d : db) (direction : option string) (userId : uuid) : list request_row :=
  match fst (get_group_join_requests direction userId d) with
  | Ret (_, rows) => rows
  | Throw => []
  end.

Section JoinRequestListing.

Lemma in_insert_requested_at_desc (x y : request_row) (l : list request_row) :
  In y (insert_requested_at_desc x l) <-> x = y \/ In y l.
Proof.
  induction l as [|z l IH]; simpl.
  - tauto.
  - destruct z as [[rz iz] gz], x as [[rx ix] gx].
    destruct (Nat.leb (gjr_requested_at rz) (gjr_requested_at rx)); simpl.
    + tauto.
    + rewrite IH. tauto.
Qed.

Lemma in_order_by (y : request_row) (l : list request_row) :
  In y (order_by_requested_at_desc l) <-> In y l.
Proof.
  unfold order_by_requested_at_desc.
  induction l as [|x l IH]; simpl; [tauto|].
  rewrite in_insert_requested_at_desc, IH. tauto.
Qed.

Lemma in_listed (d : db) (direction : option string) (u : uuid) (x : request_row) :
  In x (listed d direction u) <->
  In x (gjr_listing_rows d) /\
  (match direction with
   | Some s => if String.eqb s "incoming" then incoming_where u
               else if String.eqb s "outgoing" then outgoing_where u
               else all_where u
   | None => all_where u
   end) x = true.
Proof.
  unfold listed, get_group_join_requests, bind, query, ret; simpl.
  rewrite in_order_by, filter_In. reflexivity.
Qed.

Lemma find_key_nodup (l : list group_join_request) (r : group_join_request) :
  NoDup (map gjr_req_id l) -> In r l ->
  find (fun q => Nat.eqb (gjr_req_id q) (gjr_req_id r)) l = Some r.
Proof.
  induction l as [|a l IH]; simpl; [contradiction|].
  intros Hnd Hin. inversion Hnd as [|? ? Hnot Hnd']; subst.
  destruct Hin as [<-|Hin]; [rewrite Nat.eqb_refl; reflexivity|].
  destruct (Nat.eqb_spec (gjr_req_id a) (gjr_req_id r)) as [E|E].
  - exfalso. apply Hnot. rewrite E. apply in_map. exact Hin.
  - exact (IH Hnd' Hin).
Qed.

Lemma listing_row_selected (d : db) (r : group_join_request) (io go : uuid) :
  NoDup (map gjr_req_id (group_join_requests d)) ->
  In (r, io, go) (gjr_listing_rows d) ->
  exists ix gx, find_issue d (gjr_issue_id r) = Some ix /\
    find_group d (gjr_group_id r) = Some gx /\
    select_request_with_owners d (gjr_req_id r) = Some (r, io, go).
Proof.
  intros Hnd Hin. unfold gjr_listing_rows in Hin. apply in_flat_map in Hin.
  destruct Hin as (r' & Hr' & Hin).
  destruct (find_issue d (gjr_issue_id r')) as [ix|] eqn:Hi; [|contradiction].
  destruct (find_group d (gjr_group_id r')) as [gx|] eqn:Hg; [|contradiction].
  destruct (_ && _); [|contradiction].
  destruct Hin as [E|[]]. injection E as <- <- <-.
  exists ix, gx. split; [exact Hi|split; [exact Hg|]].
  unfold select_request_with_owners. rewrite (find_key_nodup _ _ Hnd Hr'), Hi, Hg.
  reflexivity.
Qed.


End JoinRequestListing.


Lemma incoming_where_can_act (u : uuid) (r : group_join_request) (io go : uuid) :
  incoming_where u (r, io, go)
  = (if gjr_requested_by_group r then Nat.eqb io u else Nat.eqb go u).
Proof. unfold incoming_where. destruct (gjr_requested_by_group r); simpl; rewrite ?orb_false_r; reflexivity. Qed.

Lemma outgoing_where_can_cancel (u : uuid) (r : group_join_request) (io go : uuid) :
  outgoing_where u (r, io, go)
  = (if gjr_requested_by_group r then Nat.eqb go u else Nat.eqb io u).
Proof. unfold outgoing_where. destruct (gjr_requested_by_group r); simpl; rewrite ?orb_false_r; reflexivity. Qed.

(** Extra: [GET /group-join-requests] lists with no direction (or any
    other) exactly the rows of the ['incoming'] and the ['outgoing']
    listings together, and a row is in both only when the user owns both
    the issue and the group. *)
Theorem group_join_request_directions (d : db) (u : uuid) (x : request_row) :
  (In x (listed d None u)
   <-> In x (listed d (Some "incoming") u) \/ In x (listed d (Some "outgoing") u)) /\
  (In x (listed d (Some "incoming") u) -> In x (listed d (Some "outgoing") u) ->
   let '(_, io, go) := x in io = u /\ go = u).
Proof.
  rewrite !in_listed.
  replace (String.eqb "incoming" "incoming") with true by reflexivity.
  replace (String.eqb "outgoing" "incoming") with false by reflexivity.
  replace (String.eqb "outgoing" "outgoing") with true by reflexivity.
  destruct x as [[r io] go].
  rewrite incoming_where_can_act, outgoing_where_can_cancel. unfold all_where.
  destruct (gjr_requested_by_group r);
    destruct (Nat.eqb_spec io u); destruct (Nat.eqb_spec go u); simpl;
    split; intuition congruence.
Qed.

Definition demo_join_requested : db :=
  snd (route (post_group_join_request (Some 20%nat) (Some 30%nat) (Some false) 10) demo_db).



(** Extra: every pending request in a user's ['outgoing'] listing is one
    the user may cancel: [DELETE /group-join-requests/:id] answers 200 and
    only sets its status to ['cancelled']. *)
Theorem outgoing_request_can_be_cancelled (d : db) (u : uuid)
    (r : group_join_request) (io go : uuid) :
  NoDup (map gjr_req_id (group_join_requests d)) ->
  In (r, io, go) (listed d (Some "outgoing") u) ->
  gjr_status r = "pending" ->
  route (delete_group_join_request (gjr_req_id r) u) d
  = ((200, PMessage "Request cancelled"),
     update_request_status (gjr_req_id r) "cancelled" d).
Proof.
  intros Hnd Hin Hp.
  apply in_listed in Hin.
  replace (String.eqb "outgoing" "incoming") with false in Hin by reflexivity.
  replace (String.eqb "outgoing" "outgoing") with true in Hin by reflexivity.
  destruct Hin as [Hrow Hw]. rewrite outgoing_where_can_cancel in Hw.
  destruct (listing_row_selected d r io go Hnd Hrow) as (ix & gx & Hi & Hg & Hsel).
  unfold route, delete_group_join_request, bind, query. rewrite Hsel, Hp. simpl negb.
  cbv iota. rewrite Hw. reflexivity.
Qed.

Lemma outgoing_request_can_be_cancelled_witness :
  route (delete_group_join_request 100 10) demo_join_requested
  = ((200, PMessage "Request cancelled"),
     update_request_status 100 "cancelled" demo_join_requested).
Proof.
  apply (outgoing_request_can_be_cancelled demo_join_requested 10
           (mkGJR 100 20 30 false "pending" 0 None) 10 11);
    [vm_compute; repeat constructor; intros [] | vm_compute; left; reflexivity
    | reflexivity].
Defined.

(** ** Comments on groups *)

(** [trg_inc_group_comment_count], fired [AFTER INSERT] on
    [group_comments]; [groups.comment_count] is [NOT NULL], so the
    [COALESCE] keeps it; the [int4] sum out of range raises. *)
Definition trg_inc_group_comment_count (d : db) (new : group_comment) : option db :=
  if rows_in_int4 (fun x => Nat.eqb (group_id x) (gc_group_id new))
       (fun x => group_comment_count x + 1) (groups d)
  then Some (update_group (gc_group_id new)
               (fun x => set_group_comment_count x (group_comment_count x + 1)) d)
  else None.

(** [INSERT INTO group_comments (group_id, user_id, content) VALUES ($1,
     $2, $3) RETURNING ...], with its foreign keys and its AFTER
    trigger. *)
Definition insert_group_comment (g u : uuid) (content : jsstring) (d : db)
  : option (group_comment * db) :=
  match pg_text content with
  | None => None
  | Some t =>
      let '(cid, d1) := fresh_uuid d in
      let row := mkGroupComment cid g u t in
      if is_some (find_group d1 g) && is_some (find_user d1 u)
      then match trg_inc_group_comment_count
                   (with_group_comments d1 (group_comments d1 ++ [row])) row with
           | Some d2 => Some (row, d2)
           | None => None
           end
      else None
  end.

(** [UPDATE groups SET comment_count = comment_count + 1 WHERE group_id
     = $1], an [int4] sum. *)
Definition update_group_comment_count (g : uuid) (d : db) : option (unit * db) :=
  if rows_in_int4 (fun x => Nat.eqb (group_id x) g) (fun x => group_comment_count x + 1)
       (groups d)
  then Some (tt, update_group g (fun x =>
                   set_group_comment_count x (group_comment_count x + 1)) d)
  else None.

(** [POST /groups/:id/comments]; [content] is [req.body.content]
    ([None] when absent or null). *)
Definition post_group_comment (id userId : uuid) (content : option jsstring)
  : M response :=
  match content with
  | None => ret (400, PError "Comment content is required")
  | Some s =>
      if js_empty s || (List.length (js_trim s) =? 0)%nat
      then ret (400, PError "Comment content is required")
      else
        c <- sql (insert_group_comment id userId (js_trim s)) ;;
        usr <- query (fun d => find_user d userId) ;;
        _ <- sql (update_group_comment_count id) ;;
        _ <- rows0 usr ;;
        ret (201, PGroupComment c)
  end.

Section Trim.

Lemma existsb_trim_start (p : Z -> bool) (s : jsstring) :
  (forall c, js_space c = true -> p c = false) ->
  existsb p (trim_start s) = existsb p s.
Proof.
  intros Hp. induction s as [|c s IH]; [reflexivity|].
  cbn [trim_start]. destruct (js_space c) eqn:E; [|reflexivity].
  rewrite IH. cbn [existsb]. rewrite (Hp c E). reflexivity.
Qed.

Lemma existsb_rev {A} (p : A -> bool) (l : list A) :
  existsb p (rev l) = existsb p l.
Proof.
  induction l as [|a l IH]; [reflexivity|].
  cbn [rev existsb]. rewrite existsb_app, IH. cbn [existsb].
  rewrite orb_false_r, orb_comm. reflexivity.
Qed.

Lemma js_space_not_nul (c : Z) : js_space c = true -> Z.eqb 0 c = false.
Proof.
  intros H. apply Z.eqb_neq. intros <-. discriminate H.
Qed.

(** Trimming removes no NUL. *)
Lemma existsb_nul_js_trim (s : jsstring) :
  existsb (Z.eqb 0) (js_trim s) = existsb (Z.eqb 0) s.
Proof.
  unfold js_trim.
  rewrite existsb_rev, existsb_trim_start, existsb_rev, existsb_trim_start
    by exact js_space_not_nul.
  reflexivity.
Qed.

End Trim.

(** Extra: [POST /groups/:id/comments] refuses content that is blank
    after trimming (the ECMAScript white space) with 400 and no change;
    content holding the character U+0000 makes the [INSERT] fail, so the
    route answers 500 and nothing changes; otherwise, for an existing group
    and user and a [comment_count] with room for two more, it stores the
    trimmed comment and the group's [comment_count] goes up by 2 (trigger
    and route each add 1). *)
Theorem group_comment_route (d : db) (g u : uuid) (s : jsstring) (y : group) :
  find_group d g = Some y -> is_some (find_user d u) = true ->
  (forall z, In z (groups d) -> group_id z = g ->
     int4_min <= group_comment_count z /\ group_comment_count z + 2 <= int4_max) ->
  (List.length (js_trim s) = 0%nat ->
   route (post_group_comment g u (Some s)) d
   = ((400, PError "Comment content is required"), d)) /\
  (List.length (js_trim s) <> 0%nat -> existsb (Z.eqb 0) s = true ->
   route (post_group_comment g u (Some s)) d = (internal_error, d)) /\
  (List.length (js_trim s) <> 0%nat -> existsb (Z.eqb 0) s = false ->
   exists d', route (post_group_comment g u (Some s)) d
     = ((201, PGroupComment (mkGroupComment (next_uuid d) g u (utf8_scrub (js_trim s)))), d') /\
     group_comments d'
     = (group_comments d ++ [mkGroupComment (next_uuid d) g u (utf8_scrub (js_trim s))])%list /\
     find_group d' g = Some (set_group_comment_count y (group_comment_count y + 2))).
Proof.
  intros Hg Hu Hr. split; [|split].
  - intros H. unfold route, post_group_comment. rewrite H, orb_true_r. reflexivity.
  - intros H Hnul. apply Nat.eqb_neq in H.
    unfold route, post_group_comment. rewrite H, orb_false_r.
    destruct s as [|c s']; [discriminate Hnul|]. cbn [js_empty].
    unfold bind, sql, insert_group_comment, pg_text.
    rewrite <- (existsb_nul_js_trim (c :: s')) in Hnul. rewrite Hnul. reflexivity.
  - intros H Hnul. apply Nat.eqb_neq in H.
    unfold route, post_group_comment. rewrite H, orb_false_r.
    destruct s as [|c s']; [discriminate H|]. cbn [js_empty orb].
    unfold bind, sql, insert_group_comment, pg_text.
    rewrite <- (existsb_nul_js_trim (c :: s')) in Hnul. rewrite Hnul.
    unfold fresh_uuid.
    change (find_group (mkDb _ _ _ (groups d) _ _ _ _ _ _ _ _) g) with (find_group d g).
    change (find_user (mkDb _ (users d) _ _ _ _ _ _ _ _ _ _) u) with (find_user d u).
    rewrite Hg. destruct (find_user d u) as [usr|] eqn:Hfu; [|discriminate].
    cbn [is_some andb].
    unfold trg_inc_group_comment_count. cbn [gc_group_id groups with_group_comments].
    rewrite (rows_in_int4_groups (groups d) g (fun x => group_comment_count x + 1))
      by (intros z Hz Hs; apply in_int4_iff; specialize (Hr z Hz Hs);
          unfold int4_min, int4_max in *; lia).
    unfold query, rows0, ret, update_group_comment_count.
    rewrite rows_in_int4_update_group.
    2:{ intros z Hz Hs. cbn [groups] in Hz. specialize (Hr z Hz Hs).
        apply in_int4_iff. cbn [set_group_comment_count group_comment_count].
        unfold int4_min, int4_max in *. lia. }
    change (find_user (update_group _ _ _) u) with (find_user d u). rewrite Hfu.
    eexists. split; [reflexivity|]. split; [reflexivity|].
    rewrite !find_update_group by reflexivity.
    change (find_group (with_group_comments _ _) g) with (find_group d g).
    rewrite Hg. cbn [option_map]. unfold set_group_comment_count. cbn.
    f_equal. f_equal. lia.
Qed.

Lemma group_comment_route_witness :
  route (post_group_comment 30 10 (Some [160; 32])) demo_db
    = ((400, PError "Comment content is required"), demo_db) /\
  route (post_group_comment 30 10 (Some [104; 0])) demo_db = (internal_error, demo_db) /\
  exists d', route (post_group_comment 30 10 (Some (js_str "  pothole "))) demo_db
    = ((201, PGroupComment (mkGroupComment 100 30 10 (js_str "pothole"))), d') /\
    group_comments d' = [mkGroupComment 100 30 10 (js_str "pothole")] /\
    find_group d' 30 = Some (mkGroup 30 11 0 2 (Some 0)).
Proof.
  assert (Hr : forall z, In z (groups demo_db) -> group_id z = 30%nat ->
             int4_min <= group_comment_count z /\ group_comment_count z + 2 <= int4_max)
    by (concrete_rows; unfold int4_min, int4_max; simpl; lia).
  pose proof (fun s => group_comment_route demo_db 30 10 s (mkGroup 30 11 0 0 (Some 0))
                         eq_refl eq_refl Hr) as G.
  split; [exact (proj1 (G [160; 32]) eq_refl)|].
  split; [exact (proj1 (proj2 (G [104; 0])) ltac:(discriminate) eq_refl)|].
  destruct (proj2 (proj2 (G (js_str "  pothole "))) ltac:(discriminate) eq_refl)
    as (d' & E1 & E2 & E3).
  exists d'. split; [exact E1|]. split; [exact E2|exact E3].
Defined.

(** ** The groups' [issue_count] *)

(** [trg_inc_group_issue_count_on_insert], fired [AFTER INSERT] on
    [issues]: [issue_count + 1] on the new row's group (NULL stays NULL). *)
Definition trg_inc_group_issue_count_on_insert (d : db) (new : issue) : db :=
  match issue_group_id new with
  | Some g => update_group g (fun x => set_group_issue_count x
                (option_map (fun n => n + 1) (group_issue_count x))) d
  | None => d
  end.

(** [INSERT INTO issues (title, description, user_id, group_id,
     display_picture_url, upvote_count, comment_count) VALUES ($1, $2, $3,
     $4, $5, 0, 0) RETURNING ...] ([POST /issues], with [group_id || null]):
    primary key, foreign keys to [users] and [groups], then the AFTER
    trigger. *)
Definition insert_issue (userId : uuid) (group_id0 : option uuid) (d : db)
  : option (issue * db) :=
  let '(iid, d1) := fresh_uuid d in
  let row := mkIssue iid userId group_id0 0 (Some 0) in
  if is_some (find_user d1 userId)
     && match group_id0 with Some g => is_some (find_group d1 g) | None => true end
     && negb (is_some (find_issue d1 iid))
  then Some (row, trg_inc_group_issue_count_on_insert
                    (with_issues d1 (issues d1 ++ [row])) row)
  else None.

Definition in_group (h : uuid) (x : issue) : bool :=
  opt_uuid_eqb (issue_group_id x) (Some h).

(** [SELECT COUNT( * ) FROM issues WHERE group_id = h]. *)
Definition issues_in_group (l : list issue) (h : uuid) : nat :=
  List.length (filter (in_group h) l).

(** Issue ids are the primary key, and every group's [issue_count] is the
    number of its issues. *)
Definition issue_count_exact (d : db) : Prop :=
  NoDup (map issue_id (issues d)) /\
  forall gx, In gx (groups d) ->
    group_issue_count gx = Some (Z.of_nat (issues_in_group (issues d) (group_id gx))).

Section IssueCount.

Lemma opt_uuid_eqb_true (a b : option uuid) : opt_uuid_eqb a b = true -> a = b.
Proof.
  destruct a, b; simpl; try discriminate; [|reflexivity].
  intros H; apply Nat.eqb_eq in H; subst; reflexivity.
Qed.

Lemma opt_uuid_eqb_refl (a : option uuid) : opt_uuid_eqb a a = true.
Proof. destruct a; simpl; [apply Nat.eqb_refl|reflexivity]. Qed.

Lemma map_no_match {A} (p : A -> bool) (f : A -> A) (l : list A) :
  (forall y, In y l -> p y = false) -> map (fun y => if p y then f y else y) l = l.
Proof.
  induction l as [|a l IH]; simpl; intros H; [reflexivity|].
  rewrite (H a (or_introl eq_refl)), IH by auto. reflexivity.
Qed.

Lemma filter_no_match {A} (p : A -> bool) (l : list A) :
  (forall y, In y l -> p y = false) -> filter (fun y => negb (p y)) l = l.
Proof.
  induction l as [|a l IH]; simpl; intros H; [reflexivity|].
  rewrite (H a (or_introl eq_refl)), IH by auto. reflexivity.
Qed.

Lemma ids_differ (l : list issue) (i : uuid) :
  ~ In i (map issue_id l) -> forall y, In y l -> Nat.eqb (issue_id y) i = false.
Proof.
  intros Hn y Hy. apply Nat.eqb_neq. intros E. apply Hn. rewrite <- E. apply in_map, Hy.
Qed.

Definition b2n (b : bool) : nat := if b then 1%nat else 0%nat.

Lemma issues_in_group_update (l : list issue) (i h : uuid) (g : option uuid) (x : issue) :
  NoDup (map issue_id l) ->
  find (fun y => Nat.eqb (issue_id y) i) l = Some x ->
  (issues_in_group (map (fun y => if Nat.eqb (issue_id y) i
                                  then set_issue_group_id y g else y) l) h
   + b2n (in_group h x)
   = issues_in_group l h + b2n (opt_uuid_eqb g (Some h)))%nat.
Proof.
  unfold issues_in_group.
  induction l as [|a l IH]; simpl; [discriminate|].
  intros Hnd Hf. inversion Hnd as [|? ? Hnot Hnd']; subst.
  destruct (Nat.eqb (issue_id a) i) eqn:Ha.
  - injection Hf as <-. apply Nat.eqb_eq in Ha. rewrite Ha in Hnot.
    rewrite map_no_match by exact (ids_differ l _ Hnot).
    unfold in_group at 1; simpl.
    destruct (opt_uuid_eqb g (Some h)), (in_group h a); simpl; lia.
  - specialize (IH Hnd' Hf).
    destruct (in_group h a); simpl; lia.
Qed.

Lemma issues_in_group_delete (l : list issue) (i h : uuid) (x : issue) :
  NoDup (map issue_id l) ->
  find (fun y => Nat.eqb (issue_id y) i) l = Some x ->
  (issues_in_group (filter (fun y => negb (Nat.eqb (issue_id y) i)) l) h
   + b2n (in_group h x) = issues_in_group l h)%nat.
Proof.
  unfold issues_in_group.
  induction l as [|a l IH]; simpl; [discriminate|].
  intros Hnd Hf. inversion Hnd as [|? ? Hnot Hnd']; subst.
  destruct (Nat.eqb (issue_id a) i) eqn:Ha; simpl.
  - injection Hf as <-. apply Nat.eqb_eq in Ha. rewrite Ha in Hnot.
    rewrite filter_no_match by exact (ids_differ l _ Hnot).
    destruct (in_group h a); simpl; lia.
  - specialize (IH Hnd' Hf).
    destruct (in_group h a); simpl; lia.
Qed.

Lemma issues_in_group_app (l : list issue) (x : issue) (h : uuid) :
  issues_in_group (l ++ [x])%list h = (issues_in_group l h + b2n (in_group h x))%nat.
Proof.
  unfold issues_in_group. rewrite filter_app, length_app.
  simpl. destruct (in_group h x); reflexivity.
Qed.

Lemma in_groups_update (d : db) (g : uuid) (f : group -> group) (gx' : group) :
  In gx' (groups (update_group g f d)) ->
  exists gx, In gx (groups d) /\
    gx' = if Nat.eqb (group_id gx) g then f gx else gx.
Proof.
  unfold update_group; simpl. intros H. apply in_map_iff in H.
  destruct H as (gx & <- & H). exists gx. split; [exact H|reflexivity].
Qed.

End IssueCount.

Section IssueCountPreserved.

Lemma find_issue_none_not_in (l : list issue) (i : uuid) :
  find (fun y => Nat.eqb (issue_id y) i) l = None -> ~ In i (map issue_id l).
Proof.
  induction l as [|a l IH]; simpl; [auto|].
  destruct (Nat.eqb_spec (issue_id a) i); [discriminate|].
  intros H [E|Hin]; [contradiction|exact (IH H Hin)].
Qed.

Lemma issue_ids_kept (p : issue -> bool) (l : list issue) :
  NoDup (map issue_id l) -> NoDup (map issue_id (filter p l)).
Proof.
  induction l as [|a l IH]; simpl; intros Hnd; [constructor|].
  inversion Hnd as [|? ? Hnot Hnd']; subst.
  destruct (p a); simpl; [|exact (IH Hnd')].
  constructor; [|exact (IH Hnd')].
  intros Hin. apply Hnot. apply in_map_iff in Hin as (y & Hy & Hin).
  apply filter_In in Hin as [Hin _]. rewrite <- Hy. apply in_map, Hin.
Qed.

Lemma issue_ids_map (f : issue -> issue) (l : list issue) :
  (forall y, issue_id (f y) = issue_id y) -> map issue_id (map f l) = map issue_id l.
Proof.
  intros Hf. rewrite map_map. apply map_ext. exact Hf.
Qed.

Lemma exact_insert_issue (u : uuid) (g : option uuid) (d d' : db) (x : issue) :
  issue_count_exact d -> insert_issue u g d = Some (x, d') -> issue_count_exact d'.
Proof.
  intros [Hnd Hc]. unfold insert_issue, fresh_uuid.
  change (find_issue (mkDb _ _ (issues d) _ _ _ _ _ _ _ _ _) (next_uuid d))
    with (find_issue d (next_uuid d)).
  destruct (find_issue d (next_uuid d)) eqn:Hnew;
    [rewrite andb_false_r; discriminate|].
  destruct (_ && _); [|discriminate].
  intros H; injection H as <- <-.
  set (row := mkIssue (next_uuid d) u g 0 (Some 0)).
  assert (Hrow : forall h, in_group h row = opt_uuid_eqb g (Some h)) by reflexivity.
  unfold trg_inc_group_issue_count_on_insert. simpl issue_group_id.
  split.
  { destruct g; simpl; rewrite map_app; apply NoDup_snoc; [exact Hnd| |exact Hnd|];
      apply find_issue_none_not_in; exact Hnew. }
  destruct g as [g0|]; intros gx' Hin.
  - apply in_groups_update in Hin as (gx & Hin & ->). simpl.
    rewrite issues_in_group_app, Hrow.
    destruct (Nat.eqb_spec (group_id gx) g0) as [E|E]; simpl.
    + rewrite (Hc gx Hin), E, Nat.eqb_refl. simpl. f_equal. lia.
    + rewrite (Hc gx Hin). replace (Nat.eqb g0 (group_id gx)) with false
        by (symmetry; apply Nat.eqb_neq; congruence).
      simpl. f_equal. lia.
  - simpl in Hin |- *. rewrite issues_in_group_app, Hrow. simpl.
    rewrite (Hc gx' Hin). f_equal. lia.
Qed.

End IssueCountPreserved.

Section IssueCountMoves.

Definition dec_issue_count (gx : group) : group :=
  set_group_issue_count gx (Some (match group_issue_count gx with
                                  | Some n => Z.max (n - 1) 0
                                  | None => 0
                                  end)).

Definition inc_issue_count (gx : group) : group :=
  set_group_issue_count gx (option_map (fun n => n + 1) (group_issue_count gx)).

Lemma groups_trg_update (d : db) (old new : option uuid) :
  groups (trg_update_issue_group_count d old new)
  = map (fun gx =>
           let gx1 := if opt_uuid_eqb old (Some (group_id gx)) then dec_issue_count gx else gx in
           if opt_uuid_eqb new (Some (group_id gx)) then inc_issue_count gx1 else gx1)
        (groups d).
Proof.
  unfold trg_update_issue_group_count, update_group.
  destruct old as [o|], new as [n|]; simpl;
    [rewrite map_map| | |rewrite <- (map_id (groups d)) at 1];
    apply map_ext; intros gx; simpl;
    rewrite ?(Nat.eqb_sym o (group_id gx)), ?(Nat.eqb_sym n (group_id gx));
    try reflexivity.
  destruct (Nat.eqb (group_id gx) o); reflexivity.
Qed.

Lemma issues_trg_update (d : db) (old new : option uuid) :
  issues (trg_update_issue_group_count d old new) = issues d.
Proof. destruct old, new; reflexivity. Qed.

Lemma issue_ids_set_group (l : list issue) (i : uuid) (g : option uuid) :
  map issue_id (map (fun y => if Nat.eqb (issue_id y) i then set_issue_group_id y g else y) l)
  = map issue_id l.
Proof. apply issue_ids_map. intros y. destruct (Nat.eqb (issue_id y) i); reflexivity. Qed.

Lemma exact_update_issue_group_id (i : uuid) (g : option uuid) (d d' : db) :
  issue_count_exact d -> update_issue_group_id i g d = Some (tt, d') -> issue_count_exact d'.
Proof.
  intros [Hnd Hc]. unfold update_issue_group_id.
  destruct (find_issue d i) as [x|] eqn:Hx;
    [|intros H; injection H as <-; split; assumption].
  destruct (match g with Some g' => _ | None => true end); [|discriminate].
  pose proof (fun h => issues_in_group_update (issues d) i h g x Hnd Hx) as L.
  assert (Hgx : forall h, in_group h x = opt_uuid_eqb (issue_group_id x) (Some h))
    by reflexivity.
  destruct (opt_uuid_eqb (issue_group_id x) g) eqn:Eg; intros H; injection H as <-.
  - apply opt_uuid_eqb_true in Eg.
    split; [simpl; rewrite issue_ids_set_group; exact Hnd|].
    intros gx Hin. simpl in Hin |- *. rewrite (Hc gx Hin). f_equal. f_equal.
    specialize (L (group_id gx)). rewrite Hgx, Eg in L. lia.
  - split; [rewrite issues_trg_update; simpl; rewrite issue_ids_set_group; exact Hnd|].
    intros gx' Hin. rewrite groups_trg_update in Hin. rewrite issues_trg_update.
    simpl in Hin |- *. apply in_map_iff in Hin as (gx & <- & Hin).
    specialize (L (group_id gx)). rewrite Hgx in L.
    pose proof (Hc gx Hin) as Hn.
    destruct (opt_uuid_eqb (issue_group_id x) (Some (group_id gx))) eqn:Eo;
      destruct (opt_uuid_eqb g (Some (group_id gx))) eqn:En;
      unfold dec_issue_count, inc_issue_count; simpl; rewrite ?Hn; simpl in L |- *.
    + apply opt_uuid_eqb_true in Eo, En. rewrite Eo, En, opt_uuid_eqb_refl in Eg.
      discriminate.
    + f_equal. lia.
    + f_equal. lia.
    + f_equal. lia.
Qed.

End IssueCountMoves.

Section IssueCountDeletes.

Lemma exact_delete_issue (i : uuid) (d : db) :
  issue_count_exact d -> issue_count_exact (delete_issue i d).
Proof.
  intros [Hnd Hc]. unfold delete_issue.
  destruct (find_issue d i) as [x|] eqn:Hx; [|split; assumption].
  pose proof (fun h => issues_in_group_delete (issues d) i h x Hnd Hx) as L.
  split; [rewrite issues_trg_update; simpl; apply issue_ids_kept; exact Hnd|].
  intros gx' Hin. rewrite groups_trg_update in Hin. rewrite issues_trg_update.
  simpl in Hin |- *. apply in_map_iff in Hin as (gx & <- & Hin).
  specialize (L (group_id gx)). pose proof (Hc gx Hin) as Hn.
  unfold in_group in L.
  destruct (opt_uuid_eqb (issue_group_id x) (Some (group_id gx)));
    unfold dec_issue_count; simpl; rewrite ?Hn; simpl in L |- *; f_equal; lia.
Qed.

Lemma issues_in_group_detach (l : list issue) (g h : uuid) :
  h <> g ->
  issues_in_group (map (fun x => if opt_uuid_eqb (issue_group_id x) (Some g)
                                 then set_issue_group_id x None else x) l) h
  = issues_in_group l h.
Proof.
  intros Hne. unfold issues_in_group.
  induction l as [|a l IH]; simpl; [reflexivity|].
  destruct (opt_uuid_eqb (issue_group_id a) (Some g)) eqn:Ea; simpl.
  - apply opt_uuid_eqb_true in Ea. unfold in_group at 2. rewrite Ea. simpl.
    replace (Nat.eqb g h) with false by (symmetry; apply Nat.eqb_neq; congruence).
    exact IH.
  - destruct (in_group h a); simpl; rewrite IH; reflexivity.
Qed.

Lemma exact_delete_group (g : uuid) (d : db) :
  issue_count_exact d -> issue_count_exact (delete_group g d).
Proof.
  intros [Hnd Hc]. split.
  - simpl. rewrite issue_ids_map; [exact Hnd|].
    intros y. destruct (opt_uuid_eqb (issue_group_id y) (Some g)); reflexivity.
  - intros gx Hin. simpl in Hin |- *. apply filter_In in Hin as [Hin Hne].
    rewrite issues_in_group_detach; [exact (Hc gx Hin)|].
    apply Bool.negb_true_iff, Nat.eqb_neq in Hne. exact Hne.
Qed.

End IssueCountDeletes.

(** Extra: the statements that write [issues.group_id] or delete issues
    and groups keep every group's [issue_count] equal to the number of
    its issues: the [INSERT] of [POST /issues] with its trigger, the
    [UPDATE issues SET group_id] of the join-request code with
    [trg_update_issue_group_count], and the two admin deletions with
    [trg_delete_issue_group_count] and [ON DELETE SET NULL]. *)
Theorem issue_count_exact_preserved (d : db) :
  issue_count_exact d ->
  (forall u g x d', insert_issue u g d = Some (x, d') -> issue_count_exact d') /\
  (forall i g d', update_issue_group_id i g d = Some (tt, d') -> issue_count_exact d') /\
  (forall i, issue_count_exact (delete_issue i d)) /\
  (forall g, issue_count_exact (delete_group g d)).
Proof.
  intros H. split; [|split; [|split]].
  - intros u g x d'. apply exact_insert_issue. exact H.
  - intros i g d'. apply exact_update_issue_group_id. exact H.
  - intros i. apply exact_delete_issue. exact H.
  - intros g. apply exact_delete_group. exact H.
Qed.

Lemma demo_db_issue_count_exact : issue_count_exact demo_db.
Proof.
  split; [repeat constructor; simpl; tauto|].
  intros gx Hin. simpl in Hin.
  repeat (destruct Hin as [<-|Hin]; [reflexivity|]). contradiction.
Qed.

Lemma issue_count_exact_preserved_witness :
  (forall u g x d', insert_issue u g demo_db = Some (x, d') -> issue_count_exact d') /\
  (forall i g d', update_issue_group_id i g demo_db = Some (tt, d') -> issue_count_exact d') /\
  (forall i, issue_count_exact (delete_issue i demo_db)) /\
  (forall g, issue_count_exact (delete_group g demo_db)).
Proof.
  exact (issue_count_exact_preserved demo_db demo_db_issue_count_exact).
Defined.

Section Preserves.

Variable P : db -> Prop.

Definition preserves {A} (m : M A) : Prop := forall d, P d -> P (snd (m d)).

Lemma preserves_ret {A} (a : A) : preserves (ret a).
Proof. intros d H. exact H. Qed.

Lemma preserves_throw {A} : preserves (@throw A).
Proof. intros d H. exact H. Qed.

Lemma preserves_query {A} (f : db -> A) : preserves (query f).
Proof. intros d H. exact H. Qed.

Lemma preserves_exec (f : db -> db) : (forall d, P d -> P (f d)) -> preserves (exec f).
Proof. intros Hf d H. exact (Hf d H). Qed.

Lemma preserves_sql {A} (f : db -> option (A * db)) :
  (forall d d' a, f d = Some (a, d') -> P d -> P d') -> preserves (sql f).
Proof. intros Hf d H. unfold sql. destruct (f d) as [[a d']|] eqn:E; simpl; eauto. Qed.

Lemma preserves_rows0 {A} (o : option A) : preserves (rows0 o).
Proof. destruct o; [apply preserves_ret | apply preserves_throw]. Qed.

Lemma preserves_bind {A B} (m : M A) (k : A -> M B) :
  preserves m -> (forall a, preserves (k a)) -> preserves (bind m k).
Proof.
  intros Hm Hk d H. unfold bind. pose proof (Hm d H) as H1.
  destruct (m d) as [[a|] d']; simpl in *; auto. apply Hk. exact H1.
Qed.

Lemma route_preserves (h : M response) (d : db) :
  preserves h -> P d -> P (snd (route h d)).
Proof.
  intros Hh H. unfold route. pose proof (Hh d H) as H1.
  destruct (h d) as [[r|] d']; exact H1.
Qed.

End Preserves.

Lemma exact_update_request_status (rid : uuid) (s : string) (d : db) :
  issue_count_exact d -> issue_count_exact (update_request_status rid s d).
Proof. intros H. exact H. Qed.

Lemma exact_insert_group_join_request (i g : uuid) (b : bool) (s : string) (h : bool)
    (d d' : db) (r : group_join_request) :
  insert_group_join_request i g b s h d = Some (r, d') ->
  issue_count_exact d -> issue_count_exact d'.
Proof.
  unfold insert_group_join_request, fresh_uuid.
  destruct (_ && _); [|discriminate]. intros E; injection E as _ <-. intros H. exact H.
Qed.

Ltac preserves_exact :=
  repeat match goal with
  | |- preserves _ (bind _ _) => apply preserves_bind; [|intro]
  | |- preserves _ (ret _) => apply preserves_ret
  | |- preserves _ (query _) => apply preserves_query
  | |- preserves _ (rows0 _) => apply preserves_rows0
  | |- preserves _ (sql (insert_group_join_request _ _ _ _ _)) =>
      apply preserves_sql; intros ? ? [? ?]; apply exact_insert_group_join_request
  | |- preserves _ (sql (update_issue_group_id _ _)) =>
      apply preserves_sql; intros ? ? [] ? ?; eapply exact_update_issue_group_id; eassumption
  | |- preserves _ (exec (update_request_status _ _)) =>
      apply preserves_exec; apply exact_update_request_status
  | |- preserves _ (if ?b then _ else _) => destruct b
  | |- preserves _ (match ?x with _ => _ end) => destruct x
  | |- preserves _ (let _ := _ in _) => cbv zeta
  end.

(** Extra: the join-request routes ([POST], [PUT] and [DELETE
    /group-join-requests]) and the stored procedure
    [cancel_group_join_request] keep every group's [issue_count] equal to
    the number of its issues, whatever their outcome. *)
Theorem join_request_routes_keep_issue_count (d : db) :
  issue_count_exact d ->
  (forall i g b u, issue_count_exact (snd (route (post_group_join_request i g b u) d))) /\
  (forall rid s u, issue_count_exact (snd (route (put_group_join_request rid s u) d))) /\
  (forall rid u, issue_count_exact (snd (route (delete_group_join_request rid u) d))) /\
  (forall rid u d', cancel_group_join_request rid u d = Some (tt, d') -> issue_count_exact d').
Proof.
  intros H. split; [|split; [|split]].
  - intros i g b u. apply route_preserves; [|exact H].
    unfold post_group_join_request. preserves_exact.
  - intros rid s u. apply route_preserves; [|exact H].
    unfold put_group_join_request. preserves_exact.
  - intros rid u. apply route_preserves; [|exact H].
    unfold delete_group_join_request. preserves_exact.
  - intros rid u d'. unfold cancel_group_join_request.
    destruct (find _ (group_join_requests d)); [|discriminate].
    cbv zeta. destruct (sql_if_true _); [discriminate|].
    intros E. injection E as <-. exact H.
Qed.

Lemma join_request_routes_keep_issue_count_witness :
  (forall i g b u, issue_count_exact (snd (route (post_group_join_request i g b u) demo_db))) /\
  (forall rid s u, issue_count_exact (snd (route (put_group_join_request rid s u) demo_db))) /\
  (forall rid u, issue_count_exact (snd (route (delete_group_join_request rid u) demo_db))) /\
  (forall rid u d', cancel_group_join_request rid u demo_db = Some (tt, d') -> issue_count_exact d').
Proof.
  exact (join_request_routes_keep_issue_count demo_db demo_db_issue_count_exact).
Defined.

(** ** Registration input checks *)








Section Regex.




End Regex.



(** ** Updating roles ([PUT /admin/roles/:id]) *)

(** The JavaScript values a JSON body field can hold, as far as the
    route's checks tell them apart: [JFrac] is a finite number that is not
    an integer, [JNaN] is NaN, [JUuid] the [:id] path parameter. *)
Inductive jsval : Type :=
| JUndef
| JNull
| JBool (b : bool)
| JInt (z : Z)
| JFrac
| JNaN
| JStr (s : jsstring)
| JUuid (u : uuid).

Definition js_truthy_v (v : jsval) : bool :=
  match v with
  | JUndef | JNull | JNaN => false
  | JBool b => b
  | JInt z => negb (Z.eqb z 0)
  | JFrac | JUuid _ => true
  | JStr s => negb (js_empty s)
  end.

Definition is_undef (v : jsval) : bool :=
  match v with JUndef => true | _ => false end.

(** [upvote_weight < 1 || !Number.isInteger(upvote_weight)]: only an
    integer passes [Number.isInteger], and then [< 1] decides. *)
Definition weight_invalid (v : jsval) : bool :=
  match v with JInt z => Z.ltb z 1 | _ => true end.

(** The builder's state: [updates] as (column, placeholder number),
    [values], [paramCount]. *)
Definition builder : Type := (list (string * nat) * list jsval * nat)%type.

(** [updates.push(`col = $${paramCount++}`); values.push(v)]. *)
Definition push_set (col : string) (v : jsval) (st : builder) : builder :=
  let '(updates, values, paramCount) := st in
  ((updates ++ [(col, paramCount)])%list, (values ++ [v])%list, S paramCount).

(** The dynamic [UPDATE roles SET ... WHERE role_id = $paramCount]. *)
Definition build_role_update (title description upvote_weight : jsval) (id : uuid)
  : builder :=
  let st0 : builder := ([], [], 1%nat) in
  let st1 := if js_truthy_v title then push_set "title" title st0 else st0 in
  let st2 := if negb (is_undef description) then push_set "description" description st1 else st1 in
  let st3 := if negb (is_undef upvote_weight)
             then push_set "upvote_weight" upvote_weight st2 else st2 in
  let '(updates, values, paramCount) := st3 in
  (updates, (values ++ [JUuid id])%list, paramCount).

(** A string parameter holding U+0000, which a [text] column refuses. *)
Definition js_has_nul (v : jsval) : bool :=
  match v with JStr s => existsb (Z.eqb 0) s | _ => false end.

(** The [upvote_weight] parameter, read as an [int4]: an integer out of
    range, or a value that is not an integer, makes the statement fail. *)
Definition weight_param_ok (v : option jsval) : bool :=
  match v with
  | None => true
  | Some (JInt w) => in_int4 w
  | Some _ => false
  end.

(** Running the statement on [roles] (only [upvote_weight] is a column of
    the model).  The parameters are converted before the statement runs,
    so a bad one fails it whether or not a row matches; otherwise no
    matching row gives no row back. *)
Definition run_role_update (b : builder) (d : db) : option (option role * db) :=
  let '(updates, values, paramCount) := b in
  let wparam := match find (fun cn => String.eqb (fst cn) "upvote_weight") updates with
                | Some (_, k) => Some (nth_error values (k - 1))
                | None => None
                end in
  if existsb js_has_nul values
     || negb (match wparam with Some v => weight_param_ok v | None => true end)
  then None
  else
  match nth_error values (paramCount - 1) with
  | Some (JUuid rid) =>
      match find_role d rid with
      | None => Some (None, d)
      | Some r =>
          match wparam with
          | Some (Some (JInt w)) =>
              let d' := mkDb (map (fun x => if Nat.eqb (role_id x) rid
                                            then mkRole (role_id x) w else x) (roles d))
                             (users d) (issues d) (groups d) (issue_upvotes d)
                             (group_upvotes d) (comments d) (group_comments d)
                             (group_join_requests d) (role_change_requests d)
                             (next_uuid d) (now d) in
              Some (find_role d' rid, d')
          | Some _ => None
          | None => Some (Some r, d)
          end
      end
  | _ => None
  end.

(** [PUT /admin/roles/:id] for an admin: the answer's status and row. *)
Definition put_admin_role (id : uuid) (title description upvote_weight : jsval)
  : M (Z * option role) :=
  if negb (js_truthy_v title) && negb (js_truthy_v description) && is_undef upvote_weight
  then ret (400, None)
  else if negb (is_undef upvote_weight) && weight_invalid upvote_weight
  then ret (400, None)
  else
  result <- sql (run_role_update (build_role_update title description upvote_weight id)) ;;
  match result with
  | None => ret (404, None)
  | Some r => ret (200, Some r)
  end.

(** The body field a [SET] column takes its value from. *)
Definition role_field (title description upvote_weight : jsval) (col : string) : jsval :=
  if String.eqb col "title" then title
  else if String.eqb col "description" then description
  else upvote_weight.

Section RoleUpdate.

Lemma build_role_update_shape (t de w : jsval) (id : uuid) :
  let '(u, vs, n) := build_role_update t de w id in
  map snd u = seq 1 (List.length u) /\ n = S (List.length u) /\
  List.length vs = n /\ nth_error vs (n - 1) = Some (JUuid id) /\
  Forall (fun ck => nth_error vs (snd ck - 1) = Some (role_field t de w (fst ck))) u /\
  Forall (fun ck => String.eqb (fst ck) "upvote_weight" = true -> is_undef w = false) u /\
  (is_undef w = false -> exists k, In ("upvote_weight", k) u) /\
  (u = [] <-> js_truthy_v t = false /\ is_undef de = true /\ is_undef w = true).
Proof.
  unfold build_role_update, push_set.
  destruct (js_truthy_v t) eqn:Ht, (is_undef de) eqn:Hd, (is_undef w) eqn:Hw; simpl;
    (split; [reflexivity|]); (split; [reflexivity|]); (split; [reflexivity|]);
    (split; [reflexivity|]);
    (split; [repeat constructor|]);
    (split; [repeat constructor; simpl; intros E; solve [reflexivity|discriminate E]|]);
    (split; [intros Hu; solve [discriminate Hu | eexists; repeat (first [left; reflexivity | right])]|]);
    split; intros H; try reflexivity; try discriminate H;
    try (destruct H as (H1 & H2 & H3); discriminate).
  all: repeat split.
Qed.

Lemma find_map_set_weight (l : list role) (rid : uuid) (z : Z) :
  find (fun x => Nat.eqb (role_id x) rid)
    (map (fun x => if Nat.eqb (role_id x) rid then mkRole (role_id x) z else x) l) =
  option_map (fun x => mkRole (role_id x) z) (find (fun x => Nat.eqb (role_id x) rid) l).
Proof.
  induction l as [|a l IH]; [reflexivity|].
  cbn [map find]. destruct (Nat.eqb (role_id a) rid) eqn:E.
  - cbn [role_id]. rewrite E. reflexivity.
  - rewrite E. exact IH.
Qed.

Lemma in_map_set_weight (l : list role) (rid : uuid) (z : Z) (r : role) :
  (forall x, In x l -> 1 <= upvote_weight x) -> 1 <= z ->
  In r (map (fun x => if Nat.eqb (role_id x) rid then mkRole (role_id x) z else x) l) ->
  1 <= upvote_weight r.
Proof.
  intros Hl Hz Hr. apply in_map_iff in Hr as (x & <- & Hx).
  destruct (Nat.eqb (role_id x) rid); [exact Hz | exact (Hl x Hx)].
Qed.

End RoleUpdate.

(** [PUT /admin/roles/:id]: once the first check lets a body through, the
    dynamic statement has a non-empty [SET] list whose placeholders are
    [$1 .. $k] in order, each bound to the body field of its column, and
    [WHERE role_id = $(k+1)] is bound to the path's id, the last value. *)
Theorem role_update_statement_well_formed (t de w : jsval) (id : uuid) :
  negb (js_truthy_v t) && negb (js_truthy_v de) && is_undef w = false ->
  let '(u, vs, n) := build_role_update t de w id in
  u <> [] /\ map snd u = seq 1 (List.length u) /\ n = S (List.length u) /\
  List.length vs = n /\ nth_error vs (n - 1) = Some (JUuid id) /\
  Forall (fun ck => nth_error vs (snd ck - 1) = Some (role_field t de w (fst ck))) u.
Proof.
  intros Hv. pose proof (build_role_update_shape t de w id) as Hs.
  destruct (build_role_update t de w id) as [[u vs] n].
  destruct Hs as (H1 & H2 & H3 & H4 & H5 & _ & _ & H8).
  repeat split; try assumption.
  intros Hu. apply H8 in Hu as (Ht & Hd & Hw).
  assert (Htd : js_truthy_v de = false).
  { destruct de; try discriminate Hd; reflexivity. }
  rewrite Ht, Htd, Hw in Hv. discriminate Hv.
Qed.

Lemma role_update_statement_well_formed_witness :
  negb (js_truthy_v (JStr (js_str "Moderator"))) && negb (js_truthy_v JUndef)
    && is_undef (JInt 3) = false /\
  build_role_update (JStr (js_str "Moderator")) JUndef (JInt 3) 2%nat =
    ([("title", 1%nat); ("upvote_weight", 2%nat)],
     [JStr (js_str "Moderator"); JInt 3; JUuid 2], 3%nat) /\
  let '(u, vs, n) := build_role_update (JStr (js_str "Moderator")) JUndef (JInt 3) 2%nat in
  u <> [] /\ map snd u = seq 1 (List.length u) /\ n = S (List.length u) /\
  List.length vs = n /\ nth_error vs (n - 1) = Some (JUuid 2) /\
  Forall (fun ck => nth_error vs (snd ck - 1)
                    = Some (role_field (JStr (js_str "Moderator")) JUndef (JInt 3) (fst ck))) u.
Proof.
  split; [reflexivity|]. split; [reflexivity|].
  apply (role_update_statement_well_formed (JStr (js_str "Moderator")) JUndef (JInt 3) 2%nat).
  reflexivity.
Defined.

(** [PUT /admin/roles/:id] keeps every role's [upvote_weight] at least
    1: it answers [400] or [404] without a change, or fails (the route's
    [500]: a weight out of the [int4] range or a string holding U+0000)
    without a change, or answers [200] with the role's row as stored
    afterwards, whose weight is the body's [upvote_weight] when one was
    given. *)
Theorem put_admin_role_keeps_weights (d : db) (id : uuid) (t de w : jsval) :
  (forall r, In r (roles d) -> 1 <= upvote_weight r) ->
  let '(o, d') := put_admin_role id t de w d in
  (forall r, In r (roles d') -> 1 <= upvote_weight r) /\
  ((o = Ret (400, None) \/ o = Ret (404, None) \/ o = Throw) /\ d' = d \/
   exists r, o = Ret (200, Some r) /\ find_role d' id = Some r /\
             (forall z, w = JInt z -> upvote_weight r = z)).
Proof.
  intros Hd. unfold put_admin_role.
  destruct (negb (js_truthy_v t) && negb (js_truthy_v de) && is_undef w) eqn:Hv1.
  { split; [exact Hd | left; split; [left|]; reflexivity]. }
  destruct (negb (is_undef w) && weight_invalid w) eqn:Hv2.
  { split; [exact Hd | left; split; [left|]; reflexivity]. }
  pose proof (build_role_update_shape t de w id) as Hs.
  unfold bind, sql.
  destruct (build_role_update t de w id) as [[u vs] n] eqn:Hb.
  destruct Hs as (_ & _ & _ & Hid & Hf & Huw & Hex & _).
  unfold run_role_update. cbv zeta.
  match goal with |- context [if ?c then None else _] => destruct c eqn:Hchk end.
  { split; [exact Hd | left; split; [right; right|]; reflexivity]. }
  rewrite Hid.
  destruct (find_role d id) as [r|] eqn:Hr.
  2: { split; [exact Hd | left; split; [right; left|]; reflexivity]. }
  destruct (find (fun cn => String.eqb (fst cn) "upvote_weight") u) as [[c k]|] eqn:Hfind.
  - apply find_some in Hfind as (Hin & Hc). cbn [fst] in Hc.
    apply String.eqb_eq in Hc. subst c.
    rewrite Forall_forall in Hf, Huw.
    pose proof (Huw _ Hin eq_refl) as Hw. cbn [fst] in Hw.
    pose proof (Hf _ Hin) as Hk. cbn [fst snd] in Hk.
    unfold role_field in Hk.
    replace (String.eqb "upvote_weight" "title") with false in Hk by reflexivity.
    replace (String.eqb "upvote_weight" "description") with false in Hk by reflexivity.
    rewrite Hk. rewrite Hw in Hv2. cbn [negb andb] in Hv2.
    destruct w as [| | | z | | | |]; try discriminate Hv2.
    unfold weight_invalid in Hv2. apply Z.ltb_ge in Hv2.
    unfold find_role at 1. cbn [roles]. rewrite find_map_set_weight.
    fold (find_role d id). rewrite Hr. cbn [option_map]. unfold ret.
    split.
    + intros r' Hr'. exact (in_map_set_weight _ _ _ _ Hd Hv2 Hr').
    + right. eexists. split; [reflexivity|]. split.
      * unfold find_role. cbn [roles]. rewrite find_map_set_weight.
        fold (find_role d id). rewrite Hr. reflexivity.
      * intros z' E. injection E as <-. reflexivity.
  - split; [exact Hd|]. right. exists r. split; [reflexivity|]. split; [exact Hr|].
    intros z Ez. subst w. destruct (Hex eq_refl) as (k & Hk).
    pose proof (find_none _ _ Hfind _ Hk) as Hn. cbn [fst] in Hn.
    discriminate Hn.
Qed.

Lemma put_admin_role_keeps_weights_witness :
  (forall r, In r (roles demo_db) -> 1 <= upvote_weight r) /\
  put_admin_role 2%nat JUndef JUndef (JInt 2147483648) demo_db = (Throw, demo_db) /\
  put_admin_role 2%nat JUndef JUndef (JInt 4) demo_db =
    (Ret (200, Some (mkRole 2 4)),
     snd (put_admin_role 2%nat JUndef JUndef (JInt 4) demo_db)) /\
  let '(o, d') := put_admin_role 2%nat JUndef JUndef (JInt 4) demo_db in
  (forall r, In r (roles d') -> 1 <= upvote_weight r) /\
  ((o = Ret (400, None) \/ o = Ret (404, None) \/ o = Throw) /\ d' = demo_db \/
   exists r, o = Ret (200, Some r) /\ find_role d' 2%nat = Some r /\
             (forall z, JInt 4 = JInt z -> upvote_weight r = z)).
Proof.
  assert (Hd : forall r, In r (roles demo_db) -> 1 <= upvote_weight r).
  { intros r Hr. simpl in Hr.
    repeat (destruct Hr as [<-|Hr]; [cbn; lia|]). contradiction. }
  split; [exact Hd|]. split; [reflexivity|]. split; [reflexivity|].
  exact (put_admin_role_keeps_weights demo_db 2%nat JUndef JUndef (JInt 4) Hd).
Defined.
